(** * BabelFish: the Language value, its converter registry and IETF tags

    A shallow embedding of [babelfish/language.py].  Python text is modelled
    by Rocq strings (sequences of 8-bit characters; the case functions act on
    the ASCII letters only), dictionaries by stdpp's [gmap], exceptions by an
    error result, and the two pieces of process-wide mutable state (the
    [LANGUAGE_CONVERTERS] dictionary and the attributes that registration
    attaches to the [Language] class) by an explicit state record threaded
    through a small state-and-exception monad. *)

From stdpp Require Import gmap strings list fin_maps.
From Stdlib Require Import Ascii String ZArith.

Local Open Scope string_scope.
#[local] Arguments String.append !_ _ : simpl nomatch.

(** ** Python string methods *)

Module PyStr.

Definition is_upper (c : ascii) : bool :=
  let n := nat_of_ascii c in (Nat.leb 65 n) && (Nat.leb n 90).

Definition is_lower (c : ascii) : bool :=
  let n := nat_of_ascii c in (Nat.leb 97 n) && (Nat.leb n 122).

Definition lower_char (c : ascii) : ascii :=
  if is_upper c then ascii_of_nat (nat_of_ascii c + 32) else c.

Definition upper_char (c : ascii) : ascii :=
  if is_lower c then ascii_of_nat (nat_of_ascii c - 32) else c.

Fixpoint map_chars (f : ascii -> ascii) (s : string) : string :=
  match s with
  | EmptyString => EmptyString
  | String c s' => String (f c) (map_chars f s')
  end.

(** [s.lower()] and [s.upper()] *)
Definition lower : string -> string := map_chars lower_char.
Definition upper : string -> string := map_chars upper_char.

(** [s.capitalize()]: first character upper-cased, the rest lower-cased *)
Definition capitalize (s : string) : string :=
  match s with
  | EmptyString => EmptyString
  | String c s' => String (upper_char c) (lower s')
  end.

(** [len(s)] *)
Definition len : string -> nat := String.length.

(** [s.split(sep)] for a one-character separator: never returns the empty
    list, [''.split('-')] is [['']]. *)
Fixpoint split (sep : ascii) (s : string) : list string :=
  match s with
  | EmptyString => [EmptyString]
  | String c s' =>
      if Ascii.eqb c sep then EmptyString :: split sep s'
      else match split sep s' with
           | [] => [String c EmptyString]
           | w :: ws => String c w :: ws
           end
  end.

(** [sep not in s] *)
Fixpoint free_of (sep : ascii) (s : string) : bool :=
  match s with
  | EmptyString => true
  | String c s' => negb (Ascii.eqb c sep) && free_of sep s'
  end.

End PyStr.

Definition hyphen : ascii := "-"%char.

(** ** Exceptions and the state-and-exception monad *)

(** The [ValueError]s of the module, by the message they carry. *)
Inductive ValueErrorMsg : Type :=
| NotValidLanguage (code : string)            (* '%r is not a valid language' *)
| NotValidCountry (code : string)
| NotValidScript (code : string)
| WrongIETFFormat (unmatched : list string)   (* 'Wrong IETF format. Unmatched subtags: %r' *)
| ConverterExists (name : string)             (* 'Converter %r already exists' *)
| ConverterMissing (name : string).           (* 'Converter %r does not exist' *)

Inductive exn : Type :=
| ValueError (msg : ValueErrorMsg)
| KeyError (key : string)
| IndexError
| AttributeError (name : string)
| LanguageConvertError (alpha3 : string) (country script : option string)
| LanguageReverseError (code : string).

Inductive result (A : Type) : Type :=
| Ok (a : A)
| Raise (e : exn).
Arguments Ok {A} a.
Arguments Raise {A} e.

Definition result_bind {A B} (r : result A) (k : A -> result B) : result B :=
  match r with
  | Ok a => k a
  | Raise e => Raise e
  end.

Definition result_map {A B} (f : A -> B) (r : result A) : result B :=
  result_bind r (fun a => Ok (f a)).

(** ** Converters *)

(** A converter instance.  Every converter has the forward [convert]; the
    instances of [LanguageReverseConverter] also have [reverse], whose tuple
    is splatted into [Language(...)] and is kept here as the triple of the
    three positional arguments it can fill. *)
Record Converter : Type := {
  convert : string -> option string -> option string -> result string;
  reverse : option (string -> result (string * option string * option string))
}.

(** [isinstance(c, LanguageReverseConverter)] *)
Definition is_reverse (c : Converter) : bool :=
  match reverse c with Some _ => true | None => false end.

(** ** Process-wide state *)

(** What a name of the form [from...] is bound to in the namespace of the
    [Language] class: a class method written in the class body, or the
    [partial(Language.fromcode, converter=name)] that registration attaches.
    A [partial] of a [partial] keeps the innermost function and the
    outermost keyword, so every attached value calls [fromcode] with its own
    converter name. *)
Inductive ClassAttr : Type :=
| ClassMethod
| FromPartial (converter : string).

Record State : Type := {
  LANGUAGE_CONVERTERS : gmap string Converter;
  (** the [from...] names of the class namespace; [setattr] and [delattr]
      in this module only ever touch such names *)
  Language_dict : gmap string ClassAttr
}.

Definition set_converters (f : gmap string Converter -> gmap string Converter)
    (st : State) : State :=
  {| LANGUAGE_CONVERTERS := f (LANGUAGE_CONVERTERS st);
     Language_dict := Language_dict st |}.

Definition set_dict (f : gmap string ClassAttr -> gmap string ClassAttr)
    (st : State) : State :=
  {| LANGUAGE_CONVERTERS := LANGUAGE_CONVERTERS st;
     Language_dict := f (Language_dict st) |}.

(** The state right after the module body has run: no converter loaded, and
    the class body's [fromcode] and [fromietf]. *)
Definition initial_state : State :=
  {| LANGUAGE_CONVERTERS := ∅;
     Language_dict := <["fromcode" := ClassMethod]> (<["fromietf" := ClassMethod]> ∅) |}.

Definition M (A : Type) : Type := State -> result A * State.

Definition ret {A} (a : A) : M A := fun st => (Ok a, st).
Definition raise {A} (e : exn) : M A := fun st => (Raise e, st).
Definition lift {A} (r : result A) : M A := fun st => (r, st).
Definition bind {A B} (m : M A) (k : A -> M B) : M B :=
  fun st => match m st with
            | (Ok a, st') => k a st'
            | (Raise e, st') => (Raise e, st')
            end.

Notation "'let!' x ':=' m 'in' k" := (bind m (fun x => k))
  (at level 10, x pattern, m at level 100, k at level 200).
Notation "'do!' m 'in' k" := (bind m (fun _ => k))
  (at level 10, m at level 100, k at level 200).

(** [try: m  except KeyError: raise AttributeError(name)] *)
Definition except_KeyError {A} (m : M A) (name : string) : M A :=
  fun st => match m st with
            | (Raise (KeyError _), st') => (Raise (AttributeError name), st')
            | other => other
            end.

(** ** The registry *)

(** ['from' + name] *)
Definition from_name (name : string) : string := "from" +:+ name.
#[local] Arguments from_name : simpl never.

Section Registry.

(** What [iter_entry_points('babelfish.language_converters')] yields: the
    name of each entry point and the converter its loaded class builds. *)
Variable entry_points : list (string * Converter).

Definition register_language_converter (name : string) (converter : Converter)
    : M unit :=
  fun st =>
    match LANGUAGE_CONVERTERS st !! name with
    | Some _ => (Raise (ValueError (ConverterExists name)), st)
    | None =>
        let st1 := set_converters (insert name converter) st in
        if is_reverse converter then
          (* [Language.fromcode] is read before [setattr] *)
          match Language_dict st1 !! "fromcode" with
          | None => (Raise (AttributeError "fromcode"), st1)
          | Some _ =>
              (Ok tt, set_dict (insert (from_name name) (FromPartial name)) st1)
          end
        else (Ok tt, st1)
    end.

Definition unregister_language_converter (name : string) : M unit :=
  fun st =>
    match LANGUAGE_CONVERTERS st !! name with
    | None => (Raise (ValueError (ConverterMissing name)), st)
    | Some c =>
        if is_reverse c then
          match Language_dict st !! from_name name with
          | None => (Raise (AttributeError (from_name name)), st)
          | Some _ =>
              (Ok tt, set_converters (delete name)
                        (set_dict (delete (from_name name)) st))
          end
        else (Ok tt, set_converters (delete name) st)
    end.

(** [LANGUAGE_CONVERTERS[name]] *)
Definition converters_getitem (name : string) : M Converter :=
  fun st => match LANGUAGE_CONVERTERS st !! name with
            | Some c => (Ok c, st)
            | None => (Raise (KeyError name), st)
            end.

Fixpoint find_entry_point (name : string) (eps : list (string * Converter))
    : option Converter :=
  match eps with
  | [] => None
  | (n, c) :: eps' => if String.eqb n name then Some c else find_entry_point name eps'
  end.

Definition get_language_converter (name : string) : M Converter :=
  fun st =>
    match LANGUAGE_CONVERTERS st !! name with
    | Some c => (Ok c, st)
    | None =>
        match find_entry_point name entry_points with
        | Some c =>
            (do! register_language_converter name c in converters_getitem name) st
        | None => (Raise (KeyError name), st)
        end
    end.

End Registry.

(** ** Code tables and the identity value types *)

(** A row of [data/iso-639-3.tab] *)
Record IsoLanguage : Type := {
  iso_alpha3 : string;
  iso_alpha3b : string;
  iso_alpha3t : string;
  iso_alpha2 : string;
  iso_scope : string;
  iso_type : string;
  iso_name : string;
  iso_comment : string
}.

Record Country : Type := { country_alpha2 : string }.
Record Script : Type := { script_code : string }.

(** A [country] argument of [Language(...)]: a [Country] instance or a raw
    code ([None] is the absent option). *)
Inductive CountryArg : Type :=
| CountryInstance (c : Country)
| CountryCode (code : string).

Inductive ScriptArg : Type :=
| ScriptInstance (s : Script)
| ScriptCode (code : string).

Record Language : Type := {
  alpha3 : string;
  country : option Country;
  script : option Script
}.

Definition with_country (c : Country) (l : Language) : Language :=
  {| alpha3 := alpha3 l; country := Some c; script := script l |}.

Definition with_script (s : Script) (l : Language) : Language :=
  {| alpha3 := alpha3 l; country := country l; script := Some s |}.

(** Modelled from the spec: [Country.__eq__] of [babelfish/country.py],
    which is not part of the sources at hand; two countries are equal iff
    their codes are, and a country is never equal to [None]. *)
Definition Country_eq (a b : option Country) : bool :=
  match a, b with
  | Some x, Some y => String.eqb (country_alpha2 x) (country_alpha2 y)
  | None, None => true
  | _, _ => false
  end.

(** Modelled from the spec: [Script.__eq__] of [babelfish/script.py],
    equality by code. *)
Definition Script_eq (a b : option Script) : bool :=
  match a, b with
  | Some x, Some y => String.eqb (script_code x) (script_code y)
  | None, None => true
  | _, _ => false
  end.

(** [Language.__eq__] *)
Definition Language_eq (self : Language) (other : option Language) : bool :=
  match other with
  | None => false
  | Some other =>
      String.eqb (alpha3 self) (alpha3 other)
      && Country_eq (country self) (country other)
      && Script_eq (script self) (script other)
  end.

(** [Language.__ne__] *)
Definition Language_ne (self : Language) (other : option Language) : bool :=
  negb (Language_eq self other).

(** [Language.__bool__] *)
Definition Language_bool (self : Language) : bool :=
  negb (String.eqb (alpha3 self) "und").

(** Modelled from the spec: [str(country)] and [str(script)] are the codes
    that the serialized form appends. *)
Definition Country_str (c : Country) : string := country_alpha2 c.
Definition Script_str (s : Script) : string := script_code s.

Section LanguageModule.

(** The rows read from the data file, in file order. *)
Variable LANGUAGE_MATRIX : list IsoLanguage.
(** The closed tables behind [Country] and [Script]. *)
Variable COUNTRIES : gset string.
Variable SCRIPTS : gset string.
Variable entry_points : list (string * Converter).
(** Python's [hash] on text. *)
Variable hash : string -> Z.

(** [LANGUAGES.add(iso_language.alpha3)] for every row *)
Definition LANGUAGES : gset string :=
  list_to_set (iso_alpha3 <$> LANGUAGE_MATRIX).

(** Modelled from the spec: the constructor of [Country], which validates
    the code against the closed table and stores it as given. *)
Definition Country_init (code : string) : result Country :=
  if decide (code ∈ COUNTRIES) then Ok {| country_alpha2 := code |}
  else Raise (ValueError (NotValidCountry code)).

(** Modelled from the spec: the constructor of [Script], which validates
    the code against the closed table and stores it as given. *)
Definition Script_init (code : string) : result Script :=
  if decide (code ∈ SCRIPTS) then Ok {| script_code := code |}
  else Raise (ValueError (NotValidScript code)).

(** The code that [__init__] ends up validating. *)
Definition effective_code (language : string) (unknown : option string) : string :=
  match unknown with
  | Some u => if decide (language ∈ LANGUAGES) then language else u
  | None => language
  end.

Definition country_of_arg (a : option CountryArg) : result (option Country) :=
  match a with
  | Some (CountryInstance c) => Ok (Some c)
  | None => Ok None
  | Some (CountryCode code) => result_map Some (Country_init code)
  end.

Definition script_of_arg (a : option ScriptArg) : result (option Script) :=
  match a with
  | Some (ScriptInstance s) => Ok (Some s)
  | None => Ok None
  | Some (ScriptCode code) => result_map Some (Script_init code)
  end.

(** [Language.__init__] *)
Definition Language_init (language : string) (country : option CountryArg)
    (script : option ScriptArg) (unknown : option string) : result Language :=
  let language := effective_code language unknown in
  if decide (language ∈ LANGUAGES) then
    result_bind (country_of_arg country) (fun c =>
    result_bind (script_of_arg script) (fun s =>
    Ok {| alpha3 := language; country := c; script := s |}))
  else Raise (ValueError (NotValidLanguage language)).

(** [Language.fromcode] *)
Definition Language_fromcode (code : string) (converter : string) : M Language :=
  let! c := get_language_converter entry_points converter in
  match reverse c with
  | None => raise (AttributeError "reverse")
  | Some rev =>
      let! (a, co, sc) := lift (rev code) in
      lift (Language_init a (CountryCode <$> co) (ScriptCode <$> sc) None)
  end.

(** [cls.fromalpha2(code)]: the class attribute is looked up when the call
    is made.  The class body defines no [fromalpha2], so the name is bound
    only while a registration has attached its [partial]. *)
Definition Language_fromalpha2 (code : string) : M Language :=
  fun st =>
    match Language_dict st !! "fromalpha2" with
    | Some (FromPartial converter) => Language_fromcode code converter st
    | _ => (Raise (AttributeError "fromalpha2"), st)
    end.

(** The [while subtags:] loop of [fromietf], on the subtags left. *)
Fixpoint fromietf_loop (language : Language) (subtags : list string)
    : result Language :=
  match subtags with
  | [] => Ok language
  | subtag :: subtags =>
      result_bind
        (if Nat.eqb (PyStr.len subtag) 2
         then result_map (fun c => with_country c language)
                         (Country_init (PyStr.upper subtag))
         else result_map (fun s => with_script s language)
                         (Script_init (PyStr.capitalize subtag)))
        (fun language =>
           match script language with
           | Some _ =>
               match subtags with
               | [] => Ok language
               | _ :: _ => Raise (ValueError (WrongIETFFormat subtags))
               end
           | None => fromietf_loop language subtags
           end)
  end.

(** The language that the first subtag stands for. *)
Definition fromietf_language (language_subtag : string) : M Language :=
  if Nat.eqb (PyStr.len language_subtag) 2
  then Language_fromalpha2 language_subtag
  else lift (Language_init language_subtag None None None).

(** [Language.fromietf] *)
Definition Language_fromietf (ietf : string) : M Language :=
  match PyStr.split hyphen ietf with
  | [] => raise IndexError
  | first :: subtags =>
      let! language := fromietf_language (PyStr.lower first) in
      lift (fromietf_loop language subtags)
  end.

(** [Language.__getattr__], the hook Python calls for an attribute name
    that the instance and its class do not define. *)
Definition Language_getattr (self : Language) (name : string) : M string :=
  let alpha3 := alpha3 self in
  let country := country_alpha2 <$> country self in
  let script := script_code <$> script self in
  except_KeyError
    (let! c := get_language_converter entry_points name in
     lift (convert c alpha3 country script))
    name.

(** The part of [__str__] after the language segment. *)
Definition str_suffix (self : Language) : string :=
  (match country self with
   | Some c => "-" +:+ Country_str c
   | None => ""
   end)
  +:+
  (match script self with
   | Some s => "-" +:+ Script_str s
   | None => ""
   end).

(** [Language.__str__] *)
Definition Language_str (self : Language) : M string :=
  fun st =>
    match Language_getattr self "alpha2" st with
    | (Ok s, st') => (Ok (s +:+ str_suffix self), st')
    | (Raise (LanguageConvertError _ _ _), st') =>
        (Ok (alpha3 self +:+ str_suffix self), st')
    | (Raise e, st') => (Raise e, st')
    end.

(** [Language.__hash__] *)
Definition Language_hash (self : Language) : M Z :=
  let! s := Language_str self in ret (hash s).

End LanguageModule.

(** ** The bundled [alpha2] converter *)

(** Modelled from the spec: the [alpha2] scheme of
    [babelfish/converters/alpha2.py], which is not part of the sources at
    hand.  It is a fixed two-way dictionary between the [alpha3] and the
    non-empty [alpha2] columns of the language table; the forward direction
    fails with a convert failure carrying its inputs, the reverse direction
    with a reverse failure carrying the foreign code, and the reverse tuple
    holds the language alone. *)
Definition alpha2_to_symbol (matrix : list IsoLanguage) : gmap string string :=
  foldl (fun m row =>
           if String.eqb (iso_alpha2 row) "" then m
           else <[iso_alpha3 row := iso_alpha2 row]> m) ∅ matrix.

Definition alpha2_from_symbol (matrix : list IsoLanguage) : gmap string string :=
  foldl (fun m row =>
           if String.eqb (iso_alpha2 row) "" then m
           else <[iso_alpha2 row := iso_alpha3 row]> m) ∅ matrix.

Definition Alpha2_convert (matrix : list IsoLanguage)
    (alpha3 : string) (country script : option string) : result string :=
  match alpha2_to_symbol matrix !! alpha3 with
  | Some s => Ok s
  | None => Raise (LanguageConvertError alpha3 country script)
  end.

Definition Alpha2_reverse (matrix : list IsoLanguage) (code : string)
    : result (string * option string * option string) :=
  match alpha2_from_symbol matrix !! code with
  | Some a => Ok (a, None, None)
  | None => Raise (LanguageReverseError code)
  end.

Definition Alpha2Converter (matrix : list IsoLanguage) : Converter :=
  {| convert := Alpha2_convert matrix;
     reverse := Some (Alpha2_reverse matrix) |}.

(** ** Bulk registry calls and the printed form *)

Section RegistryBulk.

Variable entry_points : list (string * Converter).

(** The [for ep in iter_entry_points(...)] loop of
    [load_language_converters], on the entry points left; the first
    registration that raises ends the loop. *)
Fixpoint register_all (eps : list (string * Converter)) : M unit :=
  match eps with
  | [] => ret tt
  | (name, converter) :: eps' =>
      do! register_language_converter name converter in register_all eps'
  end.

(** [load_language_converters] *)
Definition load_language_converters : M unit := register_all entry_points.

(** The [for name in set(...)] loop of [clear_language_converters], on the
    names left. *)
Fixpoint unregister_all (names : list string) : M unit :=
  match names with
  | [] => ret tt
  | name :: names' =>
      do! unregister_language_converter name in unregister_all names'
  end.

(** [clear_language_converters]: the names are a snapshot of the keys, taken
    before the first removal.  Python leaves the order of a set open; here it
    is the order of [elements], and the properties below are proved for
    every order. *)
Definition clear_language_converters : M unit :=
  fun st => unregister_all (elements (dom (LANGUAGE_CONVERTERS st))) st.

(** [Language.__repr__] *)
Definition Language_repr (self : Language) : M string :=
  let! s := Language_str entry_points self in
  ret ("<Language [" +:+ s +:+ "]>").

End RegistryBulk.

(** ** Vocabulary of the statements *)

(** A subtag that the loop reads as a country of the table. *)
Definition country_subtag (COUNTRIES : gset string) (subtag : string) : Prop :=
  PyStr.len subtag = 2 /\ PyStr.upper subtag ∈ COUNTRIES.

(** A subtag that the loop reads as a script of the table. *)
Definition script_subtag (SCRIPTS : gset string) (subtag : string) : Prop :=
  PyStr.len subtag <> 2 /\ PyStr.capitalize subtag ∈ SCRIPTS.

(** The language after a run of country subtags: each one overwrites. *)
Definition overwrite_countries (language : Language) (subtags : list string)
    : Language :=
  foldl (fun l subtag => with_country {| country_alpha2 := PyStr.upper subtag |} l)
        language subtags.

(** The shapes of the codes in the tables: a country code is two
    characters in upper case, a script code is not two characters long and
    is capitalized, an [alpha2] code is two characters in lower case; none
    holds a hyphen. *)
Definition country_code_shape (k : string) : bool :=
  Nat.eqb (PyStr.len k) 2 && String.eqb (PyStr.upper k) k
  && PyStr.free_of hyphen k.

Definition script_code_shape (k : string) : bool :=
  negb (Nat.eqb (PyStr.len k) 2) && String.eqb (PyStr.capitalize k) k
  && PyStr.free_of hyphen k.

Definition alpha2_code_shape (k : string) : bool :=
  Nat.eqb (PyStr.len k) 2 && String.eqb (PyStr.lower k) k
  && PyStr.free_of hyphen k.

(** What construction guarantees of a [Language]: its three codes are in
    their tables. *)
Definition Language_wf (LANGUAGE_MATRIX : list IsoLanguage)
    (COUNTRIES SCRIPTS : gset string) (l : Language) : Prop :=
  alpha3 l ∈ LANGUAGES LANGUAGE_MATRIX /\
  (forall k, country l = Some k -> country_alpha2 k ∈ COUNTRIES) /\
  (forall k, script l = Some k -> script_code k ∈ SCRIPTS).

(** A [country] argument that is an instance holds a code of the table, as
    every constructed [Country] does. *)
Definition country_arg_valid (COUNTRIES : gset string) (a : option CountryArg)
    : Prop :=
  forall c, a = Some (CountryInstance c) -> country_alpha2 c ∈ COUNTRIES.

Definition script_arg_valid (SCRIPTS : gset string) (a : option ScriptArg)
    : Prop :=
  forall s, a = Some (ScriptInstance s) -> script_code s ∈ SCRIPTS.

(** [Language.from<name>] is the constructor that registration attaches for
    the scheme [name]. *)
Definition from_constructor (st : State) (name : string) : Prop :=
  Language_dict st !! from_name name = Some (FromPartial name).

(** [name] is bound in the registry to a reverse-capable converter. *)
Definition bound_reverse (st : State) (name : string) : Prop :=
  exists c, LANGUAGE_CONVERTERS st !! name = Some c /\ is_reverse c = true.

Definition registry_matches (st : State) : Prop :=
  forall name, from_constructor st name <-> bound_reverse st name.

(** The calls that change the registry; a call that raises leaves the state
    it had reached. *)
Inductive RegistryCall : Type :=
| Register (name : string) (converter : Converter)
| Unregister (name : string)
| Get (name : string).

Definition run_call (entry_points : list (string * Converter))
    (call : RegistryCall) (st : State) : State :=
  match call with
  | Register name converter => snd (register_language_converter name converter st)
  | Unregister name => snd (unregister_language_converter name st)
  | Get name => snd (get_language_converter entry_points name st)
  end.

Definition run_calls (entry_points : list (string * Converter))
    (calls : list RegistryCall) (st : State) : State :=
  foldl (fun st call => run_call entry_points call st) st calls.

Definition unregisters_code (call : RegistryCall) : bool :=
  match call with
  | Unregister name => String.eqb name "code"
  | _ => false
  end.

(** The invariant behind [registry_matches]: registration reads
    [Language.fromcode], so the class must still have it. *)
Definition registry_inv (st : State) : Prop :=
  registry_matches st /\ is_Some (Language_dict st !! "fromcode").

(** ** A small instance of the tables

    The rows, countries and scripts that the unit tests of the package
    mention, and the [TestConverter] of [test_register_converter]. *)
Module Demo.

Definition row (a3 a3b a2 name : string) : IsoLanguage :=
  {| iso_alpha3 := a3; iso_alpha3b := a3b; iso_alpha3t := "";
     iso_alpha2 := a2; iso_scope := "I"; iso_type := "L";
     iso_name := name; iso_comment := "" |}.

Definition LANGUAGE_MATRIX : list IsoLanguage :=
  [ row "ace" "" "" "Achinese";
    row "bel" "" "be" "Belarusian";
    row "eng" "" "en" "English";
    row "fra" "fre" "fr" "French";
    row "por" "" "pt" "Portuguese";
    row "srp" "" "sr" "Serbian";
    row "und" "" "" "Undetermined" ].

Definition COUNTRIES : gset string :=
  list_to_set ["BR"; "FR"; "GB"; "ME"; "US"].

Definition SCRIPTS : gset string :=
  list_to_set ["Cyrl"; "Hira"; "Latn"].

Definition alpha2 : Converter := Alpha2Converter LANGUAGE_MATRIX.

Definition entry_points : list (string * Converter) := [("alpha2", alpha2)].

(** [TestConverter] of the unit tests *)
Definition TestConverter : Converter :=
  {| convert := fun alpha3 country script =>
       if String.eqb alpha3 "fra" then Ok "test1"
       else if String.eqb alpha3 "eng" then Ok "test2"
       else Raise (LanguageConvertError alpha3 country script);
     reverse := Some (fun test =>
       if String.eqb test "test1" then Ok ("fra", None, None)
       else if String.eqb test "test2" then Ok ("eng", None, None)
       else Raise (LanguageReverseError test)) |}.

(** The state after [load_language_converters()] *)
(** The calls of a test that registers under the name ['code'] *)
Definition code_calls : list RegistryCall :=
  [Register "code" TestConverter; Unregister "code"; Register "test" TestConverter].

(** The calls of [test_register_converter] *)
Definition test_calls : list RegistryCall :=
  [Register "test" TestConverter; Unregister "test"].

Definition loaded : State :=
  snd (register_language_converter "alpha2" alpha2 initial_state).

(** A stand-in for Python's [hash] on text *)
Definition hash (s : string) : Z := Z.of_nat (String.length s).

Definition Language_init := Language_init LANGUAGE_MATRIX COUNTRIES SCRIPTS.
Definition Language_fromietf :=
  Language_fromietf LANGUAGE_MATRIX COUNTRIES SCRIPTS entry_points.
Definition Language_str := Language_str entry_points.

(** The state after [register_language_converter('test', TestConverter)] *)
Definition with_test : State :=
  snd (register_language_converter "test" TestConverter loaded).

Definition eng : Language := {| alpha3 := "eng"; country := None; script := None |}.
Definition und : Language := {| alpha3 := "und"; country := None; script := None |}.
Definition fra : Language := {| alpha3 := "fra"; country := None; script := None |}.
Definition fra_Latn : Language :=
  {| alpha3 := "fra"; country := None; script := Some {| script_code := "Latn" |} |}.
Definition eng_US_Latn : Language :=
  {| alpha3 := "eng"; country := Some {| country_alpha2 := "US" |};
     script := Some {| script_code := "Latn" |} |}.
Definition por_BR : Language :=
  {| alpha3 := "por"; country := Some {| country_alpha2 := "BR" |}; script := None |}.

End Demo.

(** ** Facts about the string methods *)

Module PyStrFacts.
Import PyStr.

Lemma split_not_nil (sep : ascii) (s : string) : split sep s <> [].
Proof.
  induction s as [|c s IH]; simpl; [discriminate|].
  destruct (Ascii.eqb c sep); [discriminate|].
  destruct (split sep s); [contradiction | discriminate].
Qed.

Lemma split_free (sep : ascii) (s : string) :
  free_of sep s = true -> split sep s = [s].
Proof.
  induction s as [|c s IH]; simpl; [reflexivity|].
  destruct (Ascii.eqb c sep); simpl; [discriminate|].
  intros H. by rewrite (IH H).
Qed.

Lemma split_app (sep : ascii) (a b : string) :
  free_of sep a = true ->
  split sep (a +:+ String sep b) = a :: split sep b.
Proof.
  induction a as [|c a IH]; simpl.
  - intros _. by rewrite Ascii.eqb_refl.
  - destruct (Ascii.eqb c sep); simpl; [discriminate|].
    intros H. by rewrite (IH H).
Qed.

Lemma app_empty_r (s : string) : s +:+ "" = s.
Proof. induction s as [|c s IH]; simpl; [reflexivity | by rewrite IH]. Qed.

End PyStrFacts.

(** ** Facts about the registry *)

Section RegistryFacts.

Variable entry_points : list (string * Converter).

Lemma get_language_converter_bound (name : string) (c : Converter) (st : State) :
  LANGUAGE_CONVERTERS st !! name = Some c ->
  get_language_converter entry_points name st = (Ok c, st).
Proof. intros H. unfold get_language_converter. by rewrite H. Qed.

Lemma get_language_converter_unknown (name : string) (st : State) :
  LANGUAGE_CONVERTERS st !! name = None ->
  find_entry_point name entry_points = None ->
  get_language_converter entry_points name st = (Raise (KeyError name), st).
Proof. intros H1 H2. unfold get_language_converter. by rewrite H1, H2. Qed.

End RegistryFacts.

(** ** Properties of [Language] *)

Section LanguageFacts.

Variable LANGUAGE_MATRIX : list IsoLanguage.
Variable COUNTRIES : gset string.
Variable SCRIPTS : gset string.
Variable entry_points : list (string * Converter).

Abbreviation LANGS := (LANGUAGES LANGUAGE_MATRIX).
Abbreviation init := (Language_init LANGUAGE_MATRIX COUNTRIES SCRIPTS).
Abbreviation getattr := (Language_getattr entry_points).
Abbreviation str := (Language_str entry_points).

Lemma Language_init_valid (code : string) :
  code ∈ LANGS ->
  init code None None None = Ok {| alpha3 := code; country := None; script := None |}.
Proof.
  intros H. unfold Language_init, effective_code. simpl.
  by rewrite decide_True.
Qed.

Lemma Language_init_invalid (c : string) co sc u :
  effective_code LANGUAGE_MATRIX c u ∉ LANGS ->
  init c co sc u =
  Raise (ValueError (NotValidLanguage (effective_code LANGUAGE_MATRIX c u))).
Proof. intros H. unfold Language_init. by rewrite decide_False. Qed.

Lemma country_of_arg_raise a e :
  country_of_arg COUNTRIES a = Raise e ->
  exists code, e = ValueError (NotValidCountry code).
Proof.
  destruct a as [[c|code]|]; simpl; try discriminate.
  unfold Country_init. destruct (decide (code ∈ COUNTRIES)); simpl; [discriminate|].
  intros [= <-]. by exists code.
Qed.

Lemma script_of_arg_raise a e :
  script_of_arg SCRIPTS a = Raise e ->
  exists code, e = ValueError (NotValidScript code).
Proof.
  destruct a as [[c|code]|]; simpl; try discriminate.
  unfold Script_init. destruct (decide (code ∈ SCRIPTS)); simpl; [discriminate|].
  intros [= <-]. by exists code.
Qed.

(** The invalid-language error can only come from the membership test. *)
Lemma Language_init_raise_language (c : string) co sc u x :
  init c co sc u = Raise (ValueError (NotValidLanguage x)) ->
  effective_code LANGUAGE_MATRIX c u ∉ LANGS.
Proof.
  unfold Language_init.
  destruct (decide (effective_code LANGUAGE_MATRIX c u ∈ LANGS)) as [Hin|Hout]; [|done].
  destruct (country_of_arg COUNTRIES co) as [oc|e] eqn:Hc; simpl.
  - destruct (script_of_arg SCRIPTS sc) as [os|e] eqn:Hs; simpl; [discriminate|].
    apply script_of_arg_raise in Hs as [code ->]. discriminate.
  - apply country_of_arg_raise in Hc as [code ->]. discriminate.
Qed.

Lemma Language_eq_refl (l : Language) : Language_eq l (Some l) = true.
Proof.
  unfold Language_eq. rewrite String.eqb_refl.
  destruct l as [a [c|] [s|]]; simpl; by rewrite ?String.eqb_refl.
Qed.

(** C6. Construction with a fallback: an invalid code with a valid
    fallback builds the language of the fallback, and construction raises
    the invalid-language [ValueError] exactly when the code that remains
    after the substitution (the code itself without a fallback) is not in
    [LANGUAGES]; with no country and no script that is the only way it
    fails. *)
Theorem Language_init_unknown :
  (forall c f : string, c ∉ LANGS -> f ∈ LANGS ->
     init c None None (Some f) = init f None None None /\
     exists l l', init f None None None = Ok l /\
                  init c None None (Some f) = Ok l' /\
                  Language_eq l' (Some l) = true) /\
  (forall (c : string) co sc,
     c ∉ LANGS <->
     init c co sc None = Raise (ValueError (NotValidLanguage c))) /\
  (forall (c f : string) co sc,
     ((c ∉ LANGS) /\ (f ∉ LANGS)) <->
     init c co sc (Some f) = Raise (ValueError (NotValidLanguage f))) /\
  (forall (c : string),
     c ∉ LANGS <-> (exists e, init c None None None = Raise e)) /\
  (forall (c f : string),
     ((c ∉ LANGS) /\ (f ∉ LANGS)) <-> (exists e, init c None None (Some f) = Raise e)).
Proof.
  assert (Hsome : forall c f : string, c ∉ LANGS ->
            effective_code LANGUAGE_MATRIX c (Some f) = f).
  { intros c f H. unfold effective_code. by rewrite decide_False. }
  assert (Hkeep : forall c f : string, c ∈ LANGS ->
            effective_code LANGUAGE_MATRIX c (Some f) = c).
  { intros c f H. unfold effective_code. by rewrite decide_True. }
  split; [|split; [|split; [|split]]].
  - intros c f Hc Hf.
    assert (E : init c None None (Some f) = init f None None None).
    { unfold Language_init. by rewrite (Hsome c f Hc). }
    split; [exact E|].
    exists {| alpha3 := f; country := None; script := None |},
           {| alpha3 := f; country := None; script := None |}.
    rewrite E, (Language_init_valid f Hf). by rewrite Language_eq_refl.
  - intros c co sc. split.
    + intros H. by apply (Language_init_invalid c co sc None).
    + intros H. by apply Language_init_raise_language in H.
  - intros c f co sc. split.
    + intros [Hc Hf].
      rewrite (Language_init_invalid c co sc (Some f)); rewrite (Hsome c f Hc); done.
    + intros H. pose proof (Language_init_raise_language _ _ _ _ _ H) as Hn.
      destruct (decide (c ∈ LANGS)) as [Hc|Hc].
      * by rewrite (Hkeep c f Hc) in Hn.
      * split; [done|]. by rewrite (Hsome c f Hc) in Hn.
  - intros c. split.
    + intros H. eexists. by apply (Language_init_invalid c None None None).
    + intros [e H] Hc. by rewrite (Language_init_valid c Hc) in H.
  - intros c f. split.
    + intros [Hc Hf]. eexists.
      apply (Language_init_invalid c None None (Some f)). by rewrite (Hsome c f Hc).
    + intros [e H].
      destruct (decide (c ∈ LANGS)) as [Hc|Hc].
      * exfalso. revert H. unfold Language_init. rewrite (Hkeep c f Hc).
        by rewrite decide_True.
      * split; [done|]. intros Hf. revert H. unfold Language_init.
        rewrite (Hsome c f Hc). by rewrite decide_True.
Qed.

(** *** Named conversion and serialization *)

Lemma Language_getattr_found (self : Language) (name : string) (c : Converter)
    (st st' : State) :
  get_language_converter entry_points name st = (Ok c, st') ->
  getattr self name st =
  (match convert c (alpha3 self) (country_alpha2 <$> country self)
                   (script_code <$> script self) with
   | Raise (KeyError _) => Raise (AttributeError name)
   | r => r
   end, st').
Proof.
  intros H. unfold Language_getattr, except_KeyError, bind, lift. rewrite H.
  by destruct (convert c _ _ _) as [v|[]].
Qed.

(** C9. Attribute-style conversion delegates to the registry: for a name
    bound to a converter the hook returns what [convert] returns on the
    language code and the country and script codes (or [None]), and a
    convert failure comes out unchanged; for a name that is neither bound
    nor discoverable it raises [AttributeError], which is not a convert
    failure.  The registry is left as it was in both cases. *)
Theorem Language_getattr_delegates (self : Language) (name : string) (st : State) :
  let a := alpha3 self in
  let co := country_alpha2 <$> country self in
  let sc := script_code <$> script self in
  (forall c, LANGUAGE_CONVERTERS st !! name = Some c ->
     (forall v, convert c a co sc = Ok v -> getattr self name st = (Ok v, st)) /\
     (forall x y z, convert c a co sc = Raise (LanguageConvertError x y z) ->
        getattr self name st = (Raise (LanguageConvertError x y z), st))) /\
  (LANGUAGE_CONVERTERS st !! name = None ->
   find_entry_point name entry_points = None ->
   getattr self name st = (Raise (AttributeError name), st) /\
   forall x y z, AttributeError name <> LanguageConvertError x y z).
Proof.
  intros a co sc. split.
  - intros c Hc.
    pose proof (Language_getattr_found self name c st st
                  (get_language_converter_bound entry_points name c st Hc)) as E.
    fold a co sc in E.
    split; [intros v Hv | intros x y z Hv]; rewrite E, Hv; reflexivity.
  - intros Hn Hep. split; [|discriminate].
    unfold Language_getattr, except_KeyError, bind.
    by rewrite (get_language_converter_unknown entry_points name st Hn Hep).
Qed.

Lemma Language_str_converted (self : Language) (c : Converter) (s : string)
    (st st' : State) :
  get_language_converter entry_points "alpha2" st = (Ok c, st') ->
  convert c (alpha3 self) (country_alpha2 <$> country self)
            (script_code <$> script self) = Ok s ->
  str self st = (Ok (s +:+ str_suffix self), st').
Proof.
  intros Hget Hs. unfold Language_str.
  by rewrite (Language_getattr_found self "alpha2" c st st' Hget), Hs.
Qed.

(** C3. The serialized form starts with the [alpha2] conversion of the
    language when that conversion succeeds and with the raw [alpha3] code
    when it fails with a convert failure; then comes a hyphen and the
    country code if a country is set, and after it a hyphen and the script
    code if a script is set. *)
Theorem Language_str_segments (self : Language) (c : Converter) (st st' : State) :
  let a := alpha3 self in
  let co := country_alpha2 <$> country self in
  let sc := script_code <$> script self in
  let tail :=
    (match country self with Some k => "-" +:+ country_alpha2 k | None => "" end)
    +:+ (match script self with Some k => "-" +:+ script_code k | None => "" end) in
  get_language_converter entry_points "alpha2" st = (Ok c, st') ->
  (forall s, convert c a co sc = Ok s -> str self st = (Ok (s +:+ tail), st')) /\
  (forall x y z, convert c a co sc = Raise (LanguageConvertError x y z) ->
     str self st = (Ok (a +:+ tail), st')).
Proof.
  intros a co sc tail Hget.
  pose proof (Language_getattr_found self "alpha2" c st st' Hget) as E.
  fold a co sc in E.
  split; [intros s Hs | intros x y z Hs]; unfold Language_str; rewrite E, Hs; reflexivity.
Qed.

Section Hash.

Variable hash : string -> Z.

(** C7. The hash of a language is the hash of its serialized form: two
    languages that render to the same text hash identically, and the
    Portuguese of Brazil hashes as ['pt-BR']. *)
Theorem Language_hash_of_str :
  (forall self st,
     Language_hash entry_points hash self st =
     (result_map hash (fst (str self st)), snd (str self st))) /\
  (forall l1 l2 st1 st2 s,
     fst (str l1 st1) = Ok s -> fst (str l2 st2) = Ok s ->
     fst (Language_hash entry_points hash l1 st1) = Ok (hash s) /\
     fst (Language_hash entry_points hash l2 st2) = Ok (hash s)) /\
  (fst (Language_str Demo.entry_points Demo.por_BR Demo.loaded) = Ok "pt-BR" /\
   fst (Language_hash Demo.entry_points hash Demo.por_BR Demo.loaded)
   = Ok (hash "pt-BR")).
Proof.
  assert (H : forall eps self st,
            Language_hash eps hash self st =
            (result_map hash (fst (Language_str eps self st)),
             snd (Language_str eps self st))).
  { intros eps self st. unfold Language_hash, bind, ret.
    by destruct (Language_str eps self st) as [[s|e] st']. }
  split; [apply H | split].
  - intros l1 l2 st1 st2 s H1 H2. by rewrite !H, H1, H2.
  - assert (E : fst (Language_str Demo.entry_points Demo.por_BR Demo.loaded)
                = Ok "pt-BR") by (vm_compute; reflexivity).
    split; [exact E|]. by rewrite H, E.
Qed.

End Hash.

(** *** The IETF parser *)

Abbreviation loop := (fromietf_loop COUNTRIES SCRIPTS).
Abbreviation fromietf :=
  (Language_fromietf LANGUAGE_MATRIX COUNTRIES SCRIPTS entry_points).
Abbreviation language_of :=
  (fromietf_language LANGUAGE_MATRIX COUNTRIES SCRIPTS entry_points).

Lemma Language_fromietf_split (ietf first : string) (subtags : list string)
    (st : State) :
  PyStr.split hyphen ietf = first :: subtags ->
  fromietf ietf st =
  match language_of (PyStr.lower first) st with
  | (Ok language, st') => (loop language subtags, st')
  | (Raise e, st') => (Raise e, st')
  end.
Proof. intros H. unfold Language_fromietf. rewrite H. reflexivity. Qed.

Lemma loop_country_step (language : Language) (subtag : string)
    (subtags : list string) :
  (country_subtag COUNTRIES) subtag -> script language = None ->
  loop language (subtag :: subtags) =
  loop (with_country {| country_alpha2 := PyStr.upper subtag |} language) subtags.
Proof.
  intros [Hlen Hin] Hs. simpl. rewrite Hlen. simpl.
  unfold Country_init. rewrite decide_True by done. simpl. by rewrite Hs.
Qed.

Lemma loop_script_step (language : Language) (subtag : string)
    (subtags : list string) :
  (script_subtag SCRIPTS) subtag ->
  loop language (subtag :: subtags) =
  match subtags with
  | [] => Ok (with_script {| script_code := PyStr.capitalize subtag |} language)
  | _ :: _ => Raise (ValueError (WrongIETFFormat subtags))
  end.
Proof.
  intros [Hlen Hin]. simpl.
  apply Nat.eqb_neq in Hlen. rewrite Hlen.
  unfold Script_init. rewrite decide_True by done. reflexivity.
Qed.

Lemma overwrite_countries_script (language : Language) (subtags : list string) :
  script (overwrite_countries language subtags) = script language.
Proof.
  revert language. induction subtags as [|x xs IH]; intros language; simpl; [done|].
  unfold overwrite_countries in IH. by rewrite IH.
Qed.

Lemma overwrite_countries_alpha3 (language : Language) (subtags : list string) :
  alpha3 (overwrite_countries language subtags) = alpha3 language.
Proof.
  revert language. induction subtags as [|x xs IH]; intros language; simpl; [done|].
  unfold overwrite_countries in IH. by rewrite IH.
Qed.

Lemma overwrite_countries_last (language : Language) (subtags : list string)
    (c : string) :
  last subtags = Some c ->
  country (overwrite_countries language subtags)
  = Some {| country_alpha2 := PyStr.upper c |}.
Proof.
  revert language. induction subtags as [|x xs IH]; intros language; [done|].
  destruct xs as [|y ys].
  - intros [= ->]. reflexivity.
  - intros H. apply (IH (with_country {| country_alpha2 := PyStr.upper x |} language) H).
Qed.

Lemma loop_countries (language : Language) (pre rest : list string) :
  Forall (country_subtag COUNTRIES) pre -> script language = None ->
  loop language (pre ++ rest) = loop (overwrite_countries language pre) rest.
Proof.
  intros Hpre. revert language.
  induction Hpre as [|x xs Hx Hxs IH]; intros language Hs; [reflexivity|].
  change ((x :: xs) ++ rest)%list with (x :: (xs ++ rest))%list.
  rewrite (loop_country_step language x (xs ++ rest) Hx Hs).
  by rewrite IH.
Qed.

(** C8. A run of country subtags after the language is not rejected: each
    one overwrites the country set by the one before it, and the language
    built carries the country of the last subtag (upper-cased, as every
    country subtag is) and no script. *)
Theorem Language_fromietf_last_country (ietf first : string) (subtags : list string)
    (last_subtag : string) (language : Language) (st st' : State) :
  PyStr.split hyphen ietf = first :: subtags ->
  language_of (PyStr.lower first) st = (Ok language, st') ->
  script language = None ->
  Forall (country_subtag COUNTRIES) subtags ->
  2 <= List.length subtags ->
  last subtags = Some last_subtag ->
  fromietf ietf st =
  (Ok {| alpha3 := alpha3 language;
         country := Some {| country_alpha2 := PyStr.upper last_subtag |};
         script := None |}, st')
  /\ fromietf ietf st = (Ok (overwrite_countries language subtags), st').
Proof.
  intros Hsplit Hlang Hscript Hall _ Hlast.
  rewrite (Language_fromietf_split ietf first subtags st Hsplit), Hlang.
  pose proof (loop_countries language subtags [] Hall Hscript) as E.
  rewrite app_nil_r in E. rewrite E. simpl.
  split; [|reflexivity]. do 2 f_equal.
  pose proof (overwrite_countries_alpha3 language subtags) as Ha.
  pose proof (overwrite_countries_script language subtags) as Hs.
  pose proof (overwrite_countries_last language subtags last_subtag Hlast) as Hc.
  destruct (overwrite_countries language subtags) as [a c s]; simpl in *.
  by rewrite Ha, Hs, Hc, Hscript.
Qed.

(** When the loop succeeds from a language without a script, every subtag
    but the last one was read as a country. *)
Lemma loop_ok_script_last (language result : Language) (pre : list string)
    (x : string) :
  script language = None ->
  loop language (pre ++ [x]) = Ok result ->
  Forall (fun subtag => PyStr.len subtag = 2) pre.
Proof.
  revert language. induction pre as [|y ys IH]; intros language Hs H; [constructor|].
  change ((y :: ys) ++ [x])%list with (y :: (ys ++ [x]))%list in H. simpl in H.
  destruct (Nat.eqb (PyStr.len y) 2) eqn:Hlen.
  - apply Nat.eqb_eq in Hlen. constructor; [done|].
    destruct (Country_init COUNTRIES (PyStr.upper y)) as [c|e]; simpl in H; [|discriminate].
    simpl in H. rewrite Hs in H. by apply (IH (with_country c language) Hs H).
  - destruct (Script_init SCRIPTS (PyStr.capitalize y)) as [c|e]; simpl in H; [|discriminate].
    destruct (ys ++ [x])%list eqn:E; [by destruct ys | discriminate].
Qed.

(** C5. At most one script subtag, and only as the last subtag: once a
    script subtag has been consumed, any subtag still left makes the parse
    fail with the format error that carries the subtags left; and a parse
    that succeeds has read every subtag before the last as a country. *)
Theorem Language_fromietf_script_last (ietf first : string) (language : Language)
    (st st' : State) :
  language_of (PyStr.lower first) st = (Ok language, st') ->
  (forall (pre : list string) (s : string) (rest : list string),
     PyStr.split hyphen ietf = (first :: pre ++ s :: rest)%list ->
     pre = [] \/ script language = None ->
     Forall (country_subtag COUNTRIES) pre ->
     (script_subtag SCRIPTS) s ->
     rest <> [] ->
     fromietf ietf st = (Raise (ValueError (WrongIETFFormat rest)), st')) /\
  (forall (pre : list string) (x : string) (result : Language),
     PyStr.split hyphen ietf = (first :: pre ++ [x])%list ->
     script language = None ->
     fromietf ietf st = (Ok result, st') ->
     Forall (fun subtag => PyStr.len subtag = 2) pre).
Proof.
  intros Hlang. split.
  - intros pre s rest Hsplit Hpre Hall Hs Hrest.
    rewrite (Language_fromietf_split ietf first _ st Hsplit), Hlang. f_equal.
    assert (E : loop language (pre ++ s :: rest)%list
                = loop (overwrite_countries language pre) (s :: rest)).
    { destruct Hpre as [-> | Hnone]; [reflexivity | by apply loop_countries]. }
    rewrite E, (loop_script_step _ s rest Hs). by destruct rest.
  - intros pre x result Hsplit Hnone H.
    rewrite (Language_fromietf_split ietf first _ st Hsplit), Hlang in H.
    injection H as H. by apply (loop_ok_script_last language result pre x).
Qed.

Lemma Language_fromcode_bound (code name : string) (c : Converter) rev (st : State) :
  LANGUAGE_CONVERTERS st !! name = Some c ->
  reverse c = Some rev ->
  Language_fromcode LANGUAGE_MATRIX COUNTRIES SCRIPTS entry_points code name st =
  (result_bind (rev code) (fun '(a, co, sc) =>
     init a (CountryCode <$> co) (ScriptCode <$> sc) None), st).
Proof.
  intros Hc Hrev. unfold Language_fromcode, bind, lift.
  rewrite (get_language_converter_bound entry_points name c st Hc), Hrev.
  by destruct (rev code) as [[[a co] sc]|e].
Qed.

Lemma language_of_alpha2 (tag : string) (c : Converter) rev (st : State) :
  PyStr.len tag = 2 ->
  Language_dict st !! "fromalpha2" = Some (FromPartial "alpha2") ->
  LANGUAGE_CONVERTERS st !! "alpha2" = Some c ->
  reverse c = Some rev ->
  language_of tag st =
  (result_bind (rev tag) (fun '(a, co, sc) =>
     init a (CountryCode <$> co) (ScriptCode <$> sc) None), st).
Proof.
  intros Hlen Hattr Hc Hrev. unfold fromietf_language.
  rewrite Hlen. simpl. unfold Language_fromalpha2. rewrite Hattr.
  by apply (Language_fromcode_bound tag "alpha2" c rev st).
Qed.

Lemma language_of_alpha3 (tag : string) (st : State) :
  PyStr.len tag <> 2 ->
  language_of tag st = (init tag None None None, st).
Proof.
  intros Hlen. unfold fromietf_language.
  apply Nat.eqb_neq in Hlen. by rewrite Hlen.
Qed.

(** The first subtag is the language.  Once the [alpha2] converter is
    registered and [Language.fromalpha2] attached, a subtag of two
    characters goes through the reverse conversion of the [alpha2] scheme,
    whose failure is the failure of the parse; with any other length it is
    the raw [alpha3] code handed to the constructor, and an invalid code
    fails with nothing to fall back on.  So ['fr-Latn'] is then French, with
    no country, in Latin script. *)
Theorem Language_fromietf_language_subtag (ietf first : string)
    (subtags : list string) (st : State) :
  PyStr.split hyphen ietf = first :: subtags ->
  let tag := PyStr.lower first in
  (PyStr.len tag = 2 ->
   forall c rev,
     Language_dict st !! "fromalpha2" = Some (FromPartial "alpha2") ->
     LANGUAGE_CONVERTERS st !! "alpha2" = Some c ->
     reverse c = Some rev ->
     (forall a co sc, rev tag = Ok (a, co, sc) ->
        fromietf ietf st =
        (result_bind (init a (CountryCode <$> co) (ScriptCode <$> sc) None)
                     (fun language => loop language subtags), st)) /\
     (forall e, rev tag = Raise e -> fromietf ietf st = (Raise e, st))) /\
  (PyStr.len tag <> 2 ->
   (tag ∈ LANGS ->
    fromietf ietf st =
    (loop {| alpha3 := tag; country := None; script := None |} subtags, st)) /\
   (tag ∉ LANGS ->
    fromietf ietf st = (Raise (ValueError (NotValidLanguage tag)), st))) /\
  fst (Demo.Language_fromietf "fr-Latn" Demo.loaded) = Ok Demo.fra_Latn.
Proof.
  intros Hsplit tag.
  pose proof (Language_fromietf_split ietf first subtags st Hsplit) as E.
  fold tag in E. split; [|split].
  - intros Hlen c rev Hattr Hc Hrev.
    rewrite (language_of_alpha2 tag c rev st Hlen Hattr Hc Hrev) in E.
    split.
    + intros a co sc Hr. rewrite E, Hr. simpl.
      by destruct (init a _ _ None).
    + intros e Hr. by rewrite E, Hr.
  - intros Hlen. rewrite (language_of_alpha3 tag st Hlen) in E. split.
    + intros Hin. by rewrite E, (Language_init_valid tag Hin).
    + intros Hout. rewrite E.
      by rewrite (Language_init_invalid tag None None None Hout).
  - vm_compute. reflexivity.
Qed.

(** C10. [fromietf] normalizes case before every lookup.  The language
    subtag is lower-cased: two tags whose first subtags agree after [lower]
    and whose other subtags are the same parse to the same result.  A
    2-character subtag is looked up as [upper] of itself and any other
    subtag as [capitalize] of itself: membership of that form in the table
    decides validity, that form is the code the language carries and the
    code the error names, and subtags with the same form are
    interchangeable.  So ['FR-Latn'] and ['fr-Latn'] both parse to French in
    Latin script, and ['fr-fr-LATN'] parses as ['fr-FR-Latn'] does. *)
Theorem Language_fromietf_case_normalized :
  (forall t1 t2 f1 f2 rest st,
     PyStr.split hyphen t1 = f1 :: rest -> PyStr.split hyphen t2 = f2 :: rest ->
     PyStr.lower f1 = PyStr.lower f2 ->
     fromietf t1 st = fromietf t2 st) /\
  (forall language s subtags,
     PyStr.len s = 2 ->
     (PyStr.upper s ∉ COUNTRIES ->
      loop language (s :: subtags)
      = Raise (ValueError (NotValidCountry (PyStr.upper s)))) /\
     (PyStr.upper s ∈ COUNTRIES -> script language = None ->
      loop language (s :: subtags)
      = loop (with_country {| country_alpha2 := PyStr.upper s |} language) subtags /\
      loop language [s]
      = Ok (with_country {| country_alpha2 := PyStr.upper s |} language))) /\
  (forall language s subtags,
     PyStr.len s <> 2 ->
     (PyStr.capitalize s ∉ SCRIPTS ->
      loop language (s :: subtags)
      = Raise (ValueError (NotValidScript (PyStr.capitalize s)))) /\
     (PyStr.capitalize s ∈ SCRIPTS ->
      loop language [s]
      = Ok (with_script {| script_code := PyStr.capitalize s |} language))) /\
  (forall language s1 s2 subtags,
     (PyStr.len s1 = 2 -> PyStr.len s2 = 2 -> PyStr.upper s1 = PyStr.upper s2 ->
      loop language (s1 :: subtags) = loop language (s2 :: subtags)) /\
     (PyStr.len s1 <> 2 -> PyStr.len s2 <> 2 ->
      PyStr.capitalize s1 = PyStr.capitalize s2 ->
      loop language (s1 :: subtags) = loop language (s2 :: subtags))) /\
  (Demo.Language_fromietf "FR-Latn" Demo.loaded = (Ok Demo.fra_Latn, Demo.loaded) /\
   Demo.Language_fromietf "fr-Latn" Demo.loaded = (Ok Demo.fra_Latn, Demo.loaded) /\
   Demo.Language_fromietf "fr-fr-LATN" Demo.loaded
   = (Ok {| alpha3 := "fra"; country := Some {| country_alpha2 := "FR" |};
            script := Some {| script_code := "Latn" |} |}, Demo.loaded) /\
   Demo.Language_fromietf "fr-FR-Latn" Demo.loaded
   = Demo.Language_fromietf "fr-fr-LATN" Demo.loaded).
Proof.
  split; [|split; [|split; [|split]]].
  - intros t1 t2 f1 f2 rest st H1 H2 Hf.
    rewrite (Language_fromietf_split t1 f1 rest st H1),
            (Language_fromietf_split t2 f2 rest st H2).
    by rewrite Hf.
  - intros language s subtags Hlen. split.
    + intros Hout. simpl. rewrite Hlen. simpl.
      unfold Country_init. by rewrite decide_False.
    + intros Hin Hnone.
      assert (Hs : (country_subtag COUNTRIES) s) by done.
      split; [by apply loop_country_step|].
      by rewrite (loop_country_step language s [] Hs Hnone).
  - intros language s subtags Hlen. split.
    + intros Hout. simpl. apply Nat.eqb_neq in Hlen. rewrite Hlen.
      unfold Script_init. by rewrite decide_False.
    + intros Hin.
      assert (Hs : (script_subtag SCRIPTS) s) by done.
      by rewrite (loop_script_step language s [] Hs).
  - intros language s1 s2 subtags. split.
    + intros H1 H2 Hu. simpl. by rewrite H1, H2, Hu.
    + intros H1 H2 Hc. simpl.
      apply Nat.eqb_neq in H1, H2. by rewrite H1, H2, Hc.
  - repeat split; vm_compute; reflexivity.
Qed.

(** *** Round trip *)

Lemma country_code_shape_subtag (k : string) :
  k ∈ COUNTRIES -> country_code_shape k = true ->
  (country_subtag COUNTRIES) k /\ PyStr.upper k = k /\ PyStr.free_of hyphen k = true.
Proof.
  intros Hin H. unfold country_code_shape in H.
  apply andb_prop in H as [H Hfree]. apply andb_prop in H as [Hlen Hup].
  apply Nat.eqb_eq in Hlen. apply String.eqb_eq in Hup.
  repeat split; try done. by rewrite Hup.
Qed.

Lemma script_code_shape_subtag (k : string) :
  k ∈ SCRIPTS -> script_code_shape k = true ->
  (script_subtag SCRIPTS) k /\ PyStr.capitalize k = k /\ PyStr.free_of hyphen k = true.
Proof.
  intros Hin H. unfold script_code_shape in H.
  apply andb_prop in H as [H Hfree]. apply andb_prop in H as [Hlen Hup].
  apply negb_true_iff, Nat.eqb_neq in Hlen. apply String.eqb_eq in Hup.
  repeat split; try done. by rewrite Hup.
Qed.

(** C1. Parsing the serialized form gives the language back: for a
    language whose [alpha3] code the [alpha2] scheme converts, with or
    without a country and with or without a script, [fromietf] of [str]
    is the language itself. *)
Theorem Language_fromietf_str_roundtrip (l : Language) (c : Converter)
    (rev : string -> result (string * option string * option string))
    (s : string) (st : State) :
  (forall k, k ∈ COUNTRIES -> country_code_shape k = true) ->
  (forall k, k ∈ SCRIPTS -> script_code_shape k = true) ->
  (Language_wf LANGUAGE_MATRIX COUNTRIES SCRIPTS) l ->
  LANGUAGE_CONVERTERS st !! "alpha2" = Some c ->
  Language_dict st !! "fromalpha2" = Some (FromPartial "alpha2") ->
  reverse c = Some rev ->
  convert c (alpha3 l) (country_alpha2 <$> country l) (script_code <$> script l)
  = Ok s ->
  alpha2_code_shape s = true ->
  rev s = Ok (alpha3 l, None, None) ->
  exists text l',
    str l st = (Ok text, st) /\
    fromietf text st = (Ok l', st) /\
    l' = l /\ Language_eq l' (Some l) = true.
Proof.
  intros HC HS (Ha & Hco & Hsc) Hc Hattr Hrev Hconv Hshape Hback.
  unfold alpha2_code_shape in Hshape.
  apply andb_prop in Hshape as [Hshape Hfree].
  apply andb_prop in Hshape as [Hlen Hlow].
  apply Nat.eqb_eq in Hlen. apply String.eqb_eq in Hlow.
  pose proof (Language_str_converted l c s st st
                (get_language_converter_bound entry_points "alpha2" c st Hc) Hconv)
    as Hstr.
  unfold str_suffix, Country_str, Script_str in Hstr.
  assert (Hlang : language_of (PyStr.lower s) st
                  = (Ok {| alpha3 := alpha3 l; country := None; script := None |}, st)).
  { rewrite Hlow, (language_of_alpha2 s c rev st Hlen Hattr Hc Hrev), Hback. simpl.
    by rewrite (Language_init_valid (alpha3 l) Ha). }
  eexists. exists l. split; [exact Hstr|].
  split; [|split; [reflexivity | apply Language_eq_refl]].
  destruct l as [a [[k]|] [[x]|]]; simpl in *.
  - destruct (country_code_shape_subtag k (Hco _ eq_refl) (HC k (Hco _ eq_refl)))
      as (Hk & Hup & Hkfree).
    destruct (script_code_shape_subtag x (Hsc _ eq_refl) (HS x (Hsc _ eq_refl)))
      as (Hx & Hcap & Hxfree).
    rewrite (Language_fromietf_split _ s [k; x] st).
    + rewrite Hlang, (loop_country_step {| alpha3 := a; country := None; script := None |} k [x] Hk eq_refl),
              (loop_script_step _ x [] Hx).
      by rewrite Hup, Hcap.
    + rewrite (PyStrFacts.split_app hyphen s _ Hfree),
              (PyStrFacts.split_app hyphen k _ Hkfree),
              (PyStrFacts.split_free hyphen x Hxfree). reflexivity.
  - destruct (country_code_shape_subtag k (Hco _ eq_refl) (HC k (Hco _ eq_refl)))
      as (Hk & Hup & Hkfree).
    rewrite PyStrFacts.app_empty_r.
    rewrite (Language_fromietf_split _ s [k] st).
    + rewrite Hlang, (loop_country_step {| alpha3 := a; country := None; script := None |} k [] Hk eq_refl). simpl.
      by rewrite Hup.
    + rewrite (PyStrFacts.split_app hyphen s _ Hfree),
              (PyStrFacts.split_free hyphen k Hkfree). reflexivity.
  - destruct (script_code_shape_subtag x (Hsc _ eq_refl) (HS x (Hsc _ eq_refl)))
      as (Hx & Hcap & Hxfree).
    rewrite (Language_fromietf_split _ s [x] st).
    + rewrite Hlang, (loop_script_step _ x [] Hx).
      by rewrite Hcap.
    + rewrite (PyStrFacts.split_app hyphen s _ Hfree),
              (PyStrFacts.split_free hyphen x Hxfree). reflexivity.
  - rewrite PyStrFacts.app_empty_r.
    rewrite (Language_fromietf_split _ s [] st).
    + by rewrite Hlang.
    + by apply PyStrFacts.split_free.
Qed.

End LanguageFacts.

(** ** The registry and the constructors on [Language] *)

Section RegistryInvariant.

Variable entry_points : list (string * Converter).

Lemma from_name_inj (n m : string) : from_name n = from_name m -> n = m.
Proof. unfold from_name. simpl. by intros [= ->]. Qed.

Lemma from_name_ne (n m : string) : n <> m -> from_name n <> from_name m.
Proof. intros H E. by apply H, from_name_inj. Qed.

Lemma registry_inv_initial : registry_inv initial_state.
Proof.
  split; [|by eexists].
  intros name. unfold from_constructor, bound_reverse, initial_state; simpl. split.
  - intros H. exfalso. revert H.
    destruct (decide ("fromcode" = from_name name)) as [<-|Hne1];
      [by rewrite lookup_insert_eq|].
    rewrite lookup_insert_ne by done.
    destruct (decide ("fromietf" = from_name name)) as [<-|Hne2];
      [by rewrite lookup_insert_eq|].
    by rewrite lookup_insert_ne, lookup_empty.
  - intros (c & Hc & _). by rewrite lookup_empty in Hc.
Qed.

Lemma registry_inv_register (name : string) (converter : Converter) (st : State) :
  registry_inv st ->
  registry_inv (snd (register_language_converter name converter st)).
Proof.
  intros [Hm Hfc]. unfold register_language_converter.
  destruct (LANGUAGE_CONVERTERS st !! name) as [c0|] eqn:Hname; [by split|].
  assert (Hnofrom : ~ from_constructor st name).
  { intros H. apply Hm in H as (c & Hc & _). congruence. }
  destruct (is_reverse converter) eqn:Hrev; simpl.
  - destruct Hfc as [v Hv]. rewrite Hv. simpl. split.
    + intros n. unfold from_constructor, bound_reverse; simpl.
      destruct (decide (name = n)) as [->|Hne].
      * rewrite !lookup_insert_eq. split; [|done]. intros _. by exists converter.
      * rewrite !lookup_insert_ne by (done || by apply from_name_ne). apply Hm.
    + unfold set_dict; simpl.
      destruct (decide (from_name name = "fromcode")) as [->|Hne].
      * rewrite lookup_insert_eq. by eexists.
      * rewrite lookup_insert_ne by done. by exists v.
  - split; [|done].
    intros n. unfold from_constructor, bound_reverse; simpl.
    destruct (decide (name = n)) as [->|Hne].
    + rewrite lookup_insert_eq. split; [done|].
      intros (c & [= <-] & Hc). congruence.
    + rewrite lookup_insert_ne by done. apply Hm.
Qed.

Lemma registry_inv_unregister (name : string) (st : State) :
  name <> "code" ->
  registry_inv st ->
  registry_inv (snd (unregister_language_converter name st)).
Proof.
  intros Hcode [Hm Hfc]. unfold unregister_language_converter.
  destruct (LANGUAGE_CONVERTERS st !! name) as [c|] eqn:Hname; [|by split].
  destruct (is_reverse c) eqn:Hrev.
  - destruct (Language_dict st !! from_name name) as [v|] eqn:Hv; [|by split].
    simpl. split.
    + intros n. unfold from_constructor, bound_reverse; simpl.
      destruct (decide (name = n)) as [->|Hne].
      * rewrite !lookup_delete_eq. split; [done|]. by intros (c' & ? & _).
      * rewrite !lookup_delete_ne by (done || by apply from_name_ne). apply Hm.
    + unfold set_converters, set_dict; simpl.
      rewrite lookup_delete_ne; [done|].
      intros E. by apply Hcode, from_name_inj.
  - simpl. split; [|done].
    intros n. unfold from_constructor, bound_reverse; simpl.
    destruct (decide (name = n)) as [->|Hne].
    + rewrite lookup_delete_eq. split; [|by intros (c' & ? & _)].
      intros H. apply Hm in H as (c' & Hc' & Hr). congruence.
    + rewrite lookup_delete_ne by done. apply Hm.
Qed.

Lemma registry_inv_get (name : string) (st : State) :
  registry_inv st ->
  registry_inv (snd (get_language_converter entry_points name st)).
Proof.
  intros Hinv. unfold get_language_converter.
  destruct (LANGUAGE_CONVERTERS st !! name) as [c|] eqn:Hname; [done|].
  destruct (find_entry_point name entry_points) as [c|]; [|done].
  pose proof (registry_inv_register name c st Hinv) as H.
  unfold bind, converters_getitem.
  destruct (register_language_converter name c st) as [[[]|e] st1]; simpl in *; [|done].
  by destruct (LANGUAGE_CONVERTERS st1 !! name).
Qed.

Lemma registry_inv_run_calls (calls : list RegistryCall) (st : State) :
  forallb (fun call => negb (unregisters_code call)) calls = true ->
  registry_inv st ->
  registry_inv (run_calls entry_points calls st).
Proof.
  revert st. induction calls as [|call calls IH]; intros st Hcalls Hinv; [done|].
  simpl in Hcalls. apply andb_prop in Hcalls as [Hcall Hcalls].
  simpl. apply IH; [done|].
  destruct call as [name c|name|name]; simpl.
  - by apply registry_inv_register.
  - apply registry_inv_unregister; [|done].
    simpl in Hcall. apply negb_true_iff in Hcall. by apply String.eqb_neq in Hcall.
  - by apply registry_inv_get.
Qed.

(** What the registry does keep.  After any run of [register], [unregister]
    and [get] calls that unregisters nothing under the name ['code'], the
    constructors that registration has attached to [Language] are exactly
    those of the names bound to a reverse-capable converter; registering
    such a converter under a free name attaches [from<name>], and
    unregistering the name detaches it. *)
Theorem registry_matches_run_calls (calls : list RegistryCall) :
  forallb (fun call => negb (unregisters_code call)) calls = true ->
  let st := run_calls entry_points calls initial_state in
  registry_matches st /\
  (forall name converter,
     LANGUAGE_CONVERTERS st !! name = None -> is_reverse converter = true ->
     let st' := snd (register_language_converter name converter st) in
     LANGUAGE_CONVERTERS st' !! name = Some converter /\ from_constructor st' name) /\
  (forall name,
     name <> "code" -> is_Some (LANGUAGE_CONVERTERS st !! name) ->
     let st' := snd (unregister_language_converter name st) in
     LANGUAGE_CONVERTERS st' !! name = None /\ ~ from_constructor st' name).
Proof.
  intros Hcalls st.
  pose proof (registry_inv_run_calls calls initial_state Hcalls registry_inv_initial)
    as Hinv.
  fold st in Hinv. split; [apply Hinv | split].
  - intros name converter Hfree Hrev st'.
    pose proof (registry_inv_register name converter st Hinv) as [Hm _].
    fold st' in Hm.
    assert (Hb : LANGUAGE_CONVERTERS st' !! name = Some converter).
    { subst st'. unfold register_language_converter. rewrite Hfree, Hrev.
      destruct Hinv as [_ [v Hv]]. simpl. rewrite Hv. simpl.
      by rewrite lookup_insert_eq. }
    split; [done|]. apply Hm. by exists converter.
  - intros name Hcode [c Hc] st'.
    pose proof (registry_inv_unregister name st Hcode Hinv) as [Hm _].
    fold st' in Hm.
    assert (Hb : LANGUAGE_CONVERTERS st' !! name = None).
    { subst st'. unfold unregister_language_converter. rewrite Hc.
      destruct (is_reverse c) eqn:Hrev.
      - assert (Hf : from_constructor st name) by (apply Hinv; by exists c).
        unfold from_constructor in Hf. rewrite Hf. simpl. by rewrite lookup_delete_eq.
      - simpl. by rewrite lookup_delete_eq. }
    split; [done|]. intros Hf. apply Hm in Hf as (c' & Hc' & _). congruence.
Qed.

End RegistryInvariant.

(** ** The registry after a converter named ['code'] has come and gone *)

(** C2. The constructors on [Language] are meant to follow the registry,
    and they stop doing so once a converter named ['code'] has come and
    gone: [register('code', TestConverter)] replaces [Language.fromcode],
    [unregister('code')] deletes it, and the next
    registration of a reverse-capable converter binds the name in
    [LANGUAGE_CONVERTERS] and then raises [AttributeError] before any
    constructor is attached: ['test'] is bound to a reverse-capable
    converter and [Language] has no [fromtest]. *)
Lemma registry_matches_after_code :
  let st := run_calls [] Demo.code_calls initial_state in
  fst (register_language_converter "test" Demo.TestConverter
         (run_calls [] (take 2 Demo.code_calls) initial_state))
  = Raise (AttributeError "fromcode") /\
  bound_reverse st "test" /\
  Language_dict st !! from_name "test" = None /\
  ~ from_constructor st "test" /\
  ~ registry_matches st.
Proof.
  intros st.
  assert (Hb : bound_reverse st "test").
  { exists Demo.TestConverter. split; [vm_compute; reflexivity | reflexivity]. }
  assert (Hn : Language_dict st !! from_name "test" = None) by (vm_compute; reflexivity).
  assert (Hf : ~ from_constructor st "test").
  { unfold from_constructor. rewrite Hn. discriminate. }
  split; [vm_compute; reflexivity|].
  repeat split; try done.
  intros Hm. by apply Hf, Hm.
Qed.

(** ** A two-letter tag before the [alpha2] converter is registered *)

(** C4. A first subtag of two characters is meant to go through the
    reverse conversion of the [alpha2] scheme, and it does not while that
    converter is not registered.  [fromietf] reads the class attribute
    [fromalpha2], which only a registration attaches, and does not look the
    scheme up: in the state the module starts in, and again after
    [clear_language_converters()], ['fr-Latn'] raises [AttributeError]
    although the scheme is among the entry points.  From the same state
    [fromcode('fr', 'alpha2')] and [str] discover the converter, and the
    three-letter ['fra-Latn'] parses; after such a discovery ['fr-Latn']
    parses too. *)
Lemma Language_fromietf_unregistered_alpha2 :
  (forall LANGUAGE_MATRIX COUNTRIES SCRIPTS entry_points ietf first subtags st,
     PyStr.split hyphen ietf = first :: subtags ->
     PyStr.len (PyStr.lower first) = 2 ->
     Language_dict st !! "fromalpha2" = None ->
     Language_fromietf LANGUAGE_MATRIX COUNTRIES SCRIPTS entry_points ietf st
     = (Raise (AttributeError "fromalpha2"), st)) /\
  find_entry_point "alpha2" Demo.entry_points = Some Demo.alpha2 /\
  Demo.Language_fromietf "fr-Latn" initial_state
  = (Raise (AttributeError "fromalpha2"), initial_state) /\
  snd (clear_language_converters Demo.loaded) = initial_state /\
  Demo.Language_fromietf "fr-Latn" (snd (clear_language_converters Demo.loaded))
  = (Raise (AttributeError "fromalpha2"), initial_state) /\
  Language_fromcode Demo.LANGUAGE_MATRIX Demo.COUNTRIES Demo.SCRIPTS
    Demo.entry_points "fr" "alpha2" initial_state
  = (Ok Demo.fra, Demo.loaded) /\
  Demo.Language_str Demo.fra_Latn initial_state = (Ok "fr-Latn", Demo.loaded) /\
  Demo.Language_fromietf "fra-Latn" initial_state = (Ok Demo.fra_Latn, initial_state) /\
  Demo.Language_fromietf "fr-Latn" Demo.loaded = (Ok Demo.fra_Latn, Demo.loaded).
Proof.
  split.
  - intros LANGUAGE_MATRIX COUNTRIES SCRIPTS entry_points ietf first subtags st
           Hsplit Hlen Hattr.
    unfold Language_fromietf, bind, fromietf_language. rewrite Hsplit, Hlen. simpl.
    unfold Language_fromalpha2. by rewrite Hattr.
  - repeat split; vm_compute; reflexivity.
Qed.

(** ** The theorems at the instance of the unit tests *)

Module DemoFacts.

Lemma languages_elem (code : string) :
  bool_decide (code ∈ LANGUAGES Demo.LANGUAGE_MATRIX) = true ->
  code ∈ LANGUAGES Demo.LANGUAGE_MATRIX.
Proof. intros H. by apply bool_decide_eq_true in H. Qed.

Lemma languages_not_elem (code : string) :
  bool_decide (code ∈ LANGUAGES Demo.LANGUAGE_MATRIX) = false ->
  code ∉ LANGUAGES Demo.LANGUAGE_MATRIX.
Proof. intros H. by apply bool_decide_eq_false in H. Qed.

Lemma countries_elem (code : string) :
  bool_decide (code ∈ Demo.COUNTRIES) = true -> code ∈ Demo.COUNTRIES.
Proof. intros H. by apply bool_decide_eq_true in H. Qed.

Lemma scripts_elem (code : string) :
  bool_decide (code ∈ Demo.SCRIPTS) = true -> code ∈ Demo.SCRIPTS.
Proof. intros H. by apply bool_decide_eq_true in H. Qed.

Lemma countries_shape (k : string) :
  k ∈ Demo.COUNTRIES -> country_code_shape k = true.
Proof.
  unfold Demo.COUNTRIES. rewrite elem_of_list_to_set, !elem_of_cons, elem_of_nil.
  intros H. repeat destruct H as [->|H]; try reflexivity. contradiction.
Qed.

Lemma scripts_shape (k : string) :
  k ∈ Demo.SCRIPTS -> script_code_shape k = true.
Proof.
  unfold Demo.SCRIPTS. rewrite elem_of_list_to_set, !elem_of_cons, elem_of_nil.
  intros H. repeat destruct H as [->|H]; try reflexivity. contradiction.
Qed.

Lemma eng_US_Latn_wf :
  Language_wf Demo.LANGUAGE_MATRIX Demo.COUNTRIES Demo.SCRIPTS Demo.eng_US_Latn.
Proof.
  split; [by apply languages_elem | split].
  - intros k [= <-]. by apply countries_elem.
  - intros k [= <-]. by apply scripts_elem.
Qed.

End DemoFacts.

Lemma Language_fromietf_str_roundtrip_witness :
  exists text l',
    Demo.Language_str Demo.eng_US_Latn Demo.loaded = (Ok text, Demo.loaded) /\
    Demo.Language_fromietf text Demo.loaded = (Ok l', Demo.loaded) /\
    l' = Demo.eng_US_Latn /\ Language_eq l' (Some Demo.eng_US_Latn) = true.
Proof.
  apply (Language_fromietf_str_roundtrip
           Demo.LANGUAGE_MATRIX Demo.COUNTRIES Demo.SCRIPTS Demo.entry_points
           Demo.eng_US_Latn Demo.alpha2 (Alpha2_reverse Demo.LANGUAGE_MATRIX)
           "en" Demo.loaded).
  - exact DemoFacts.countries_shape.
  - exact DemoFacts.scripts_shape.
  - exact DemoFacts.eng_US_Latn_wf.
  - vm_compute; reflexivity.
  - vm_compute; reflexivity.
  - reflexivity.
  - vm_compute; reflexivity.
  - reflexivity.
  - vm_compute; reflexivity.
Defined.

Lemma registry_matches_run_calls_witness :
  registry_matches (run_calls [] Demo.test_calls initial_state).
Proof.
  exact (proj1 (registry_matches_run_calls [] Demo.test_calls eq_refl)).
Defined.

Lemma Language_str_segments_witness :
  Demo.Language_str Demo.por_BR Demo.loaded = (Ok "pt-BR", Demo.loaded) /\
  Demo.Language_str {| alpha3 := "ace"; country := None; script := None |} Demo.loaded
  = (Ok "ace", Demo.loaded).
Proof.
  split.
  - apply (proj1 (Language_str_segments Demo.entry_points Demo.por_BR Demo.alpha2
                    Demo.loaded Demo.loaded eq_refl) "pt").
    vm_compute; reflexivity.
  - apply (proj2 (Language_str_segments Demo.entry_points
                    {| alpha3 := "ace"; country := None; script := None |} Demo.alpha2
                    Demo.loaded Demo.loaded eq_refl) "ace" None None).
    vm_compute; reflexivity.
Defined.

Lemma Language_fromietf_language_subtag_witness :
  Demo.Language_fromietf "fr-Latn" Demo.loaded = (Ok Demo.fra_Latn, Demo.loaded) /\
  Demo.Language_fromietf "xyz-FR" Demo.loaded
  = (Raise (ValueError (NotValidLanguage "xyz")), Demo.loaded).
Proof.
  split.
  - apply (proj1 (proj1 (Language_fromietf_language_subtag
                    Demo.LANGUAGE_MATRIX Demo.COUNTRIES Demo.SCRIPTS Demo.entry_points
                    "fr-Latn" "fr" ["Latn"] Demo.loaded eq_refl)
                    eq_refl Demo.alpha2 (Alpha2_reverse Demo.LANGUAGE_MATRIX)
                    eq_refl eq_refl eq_refl) "fra" None None).
    vm_compute; reflexivity.
  - apply (proj2 (proj1 (proj2 (Language_fromietf_language_subtag
                    Demo.LANGUAGE_MATRIX Demo.COUNTRIES Demo.SCRIPTS Demo.entry_points
                    "xyz-FR" "xyz" ["FR"] Demo.loaded eq_refl))
                    ltac:(vm_compute; discriminate))).
    by apply DemoFacts.languages_not_elem.
Defined.

Lemma Language_fromietf_script_last_witness :
  Demo.Language_fromietf "fra-FR-Latn-US" Demo.loaded
  = (Raise (ValueError (WrongIETFFormat ["US"])), Demo.loaded).
Proof.
  apply (proj1 (Language_fromietf_script_last
                  Demo.LANGUAGE_MATRIX Demo.COUNTRIES Demo.SCRIPTS Demo.entry_points
                  "fra-FR-Latn-US" "fra" Demo.fra Demo.loaded Demo.loaded eq_refl)
               ["FR"] "Latn" ["US"]).
  - reflexivity.
  - by right.
  - repeat constructor; try by apply DemoFacts.countries_elem.
  - split; [vm_compute; discriminate | by apply DemoFacts.scripts_elem].
  - discriminate.
Defined.

Lemma Language_init_unknown_witness :
  Demo.Language_init "zzzz" None None (Some "und")
  = Demo.Language_init "und" None None None.
Proof.
  apply (proj1 (Language_init_unknown
                  Demo.LANGUAGE_MATRIX Demo.COUNTRIES Demo.SCRIPTS) "zzzz" "und").
  - by apply DemoFacts.languages_not_elem.
  - by apply DemoFacts.languages_elem.
Defined.

Lemma Language_hash_of_str_witness :
  fst (Language_hash Demo.entry_points Demo.hash Demo.por_BR Demo.loaded) = Ok 5%Z /\
  fst (Language_hash Demo.entry_points Demo.hash Demo.por_BR initial_state) = Ok 5%Z.
Proof.
  apply (proj1 (proj2 (Language_hash_of_str Demo.entry_points Demo.hash))
               Demo.por_BR Demo.por_BR Demo.loaded initial_state "pt-BR").
  - vm_compute; reflexivity.
  - vm_compute; reflexivity.
Defined.

Lemma Language_fromietf_last_country_witness :
  Demo.Language_fromietf "fr-FR-us" Demo.loaded
  = (Ok {| alpha3 := "fra"; country := Some {| country_alpha2 := "US" |};
           script := None |}, Demo.loaded).
Proof.
  apply (proj1 (Language_fromietf_last_country
                  Demo.LANGUAGE_MATRIX Demo.COUNTRIES Demo.SCRIPTS Demo.entry_points
                  "fr-FR-us" "fr" ["FR"; "us"] "us" Demo.fra Demo.loaded Demo.loaded
                  eq_refl eq_refl eq_refl
                  ltac:(repeat constructor; try by apply DemoFacts.countries_elem)
                  ltac:(simpl; lia) eq_refl)).
Defined.

Lemma Language_getattr_delegates_witness :
  Language_getattr Demo.entry_points Demo.eng_US_Latn "alpha2" Demo.loaded
  = (Ok "en", Demo.loaded) /\
  Language_getattr Demo.entry_points Demo.fra "test" Demo.loaded
  = (Raise (AttributeError "test"), Demo.loaded).
Proof.
  split.
  - apply (proj1 (proj1 (Language_getattr_delegates Demo.entry_points
                    Demo.eng_US_Latn "alpha2" Demo.loaded) Demo.alpha2 eq_refl) "en").
    vm_compute; reflexivity.
  - apply (proj1 (proj2 (Language_getattr_delegates Demo.entry_points
                    Demo.fra "test" Demo.loaded) eq_refl eq_refl)).
Defined.

Lemma Language_fromietf_case_normalized_witness :
  Demo.Language_fromietf "FR-Latn" Demo.loaded
  = Demo.Language_fromietf "fr-Latn" Demo.loaded /\
  fromietf_loop Demo.COUNTRIES Demo.SCRIPTS Demo.fra ["fr"]
  = Ok (with_country {| country_alpha2 := "FR" |} Demo.fra) /\
  fromietf_loop Demo.COUNTRIES Demo.SCRIPTS Demo.fra ["yz"; "Latn"]
  = Raise (ValueError (NotValidCountry "YZ")) /\
  fromietf_loop Demo.COUNTRIES Demo.SCRIPTS Demo.fra ["LATN"]
  = Ok (with_script {| script_code := "Latn" |} Demo.fra).
Proof.
  pose proof (Language_fromietf_case_normalized
                Demo.LANGUAGE_MATRIX Demo.COUNTRIES Demo.SCRIPTS Demo.entry_points)
    as (Hlang & Hcountry & Hscript & _).
  split; [|split; [|split]].
  - apply (Hlang "FR-Latn" "fr-Latn" "FR" "fr" ["Latn"] Demo.loaded); reflexivity.
  - apply (proj2 (Hcountry Demo.fra "fr" [] eq_refl)).
    + by apply DemoFacts.countries_elem.
    + reflexivity.
  - apply (proj1 (Hcountry Demo.fra "yz" ["Latn"] eq_refl)).
    apply (proj1 (bool_decide_eq_false _)). vm_compute; reflexivity.
  - apply (proj2 (Hscript Demo.fra "LATN" [] ltac:(vm_compute; discriminate))).
    by apply DemoFacts.scripts_elem.
Defined.

(** ** Laws of the registry *)

Section RegistryLaws.

Variable entry_points : list (string * Converter).

Lemma register_language_converter_ok (name : string) (converter : Converter)
    (st st' : State) :
  register_language_converter name converter st = (Ok tt, st') ->
  LANGUAGE_CONVERTERS st !! name = None /\
  LANGUAGE_CONVERTERS st' = <[name := converter]> (LANGUAGE_CONVERTERS st) /\
  Language_dict st' =
  (if is_reverse converter
   then <[from_name name := FromPartial name]> (Language_dict st)
   else Language_dict st).
Proof.
  unfold register_language_converter.
  destruct (LANGUAGE_CONVERTERS st !! name) eqn:Hname; [discriminate|].
  destruct (is_reverse converter).
  - simpl. destruct (Language_dict st !! "fromcode"); [|discriminate].
    by intros [= <-].
  - by intros [= <-].
Qed.

Lemma unregister_language_converter_ok (name : string) (st st' : State) :
  unregister_language_converter name st = (Ok tt, st') ->
  exists c, LANGUAGE_CONVERTERS st !! name = Some c /\
  LANGUAGE_CONVERTERS st' = delete name (LANGUAGE_CONVERTERS st) /\
  Language_dict st' =
  (if is_reverse c then delete (from_name name) (Language_dict st)
   else Language_dict st).
Proof.
  unfold unregister_language_converter.
  destruct (LANGUAGE_CONVERTERS st !! name) as [c|] eqn:Hname; [|discriminate].
  intros H. exists c. split; [done|]. revert H.
  destruct (is_reverse c).
  - destruct (Language_dict st !! from_name name); [|discriminate].
    by intros [= <-].
  - by intros [= <-].
Qed.

Lemma State_eq (st st' : State) :
  LANGUAGE_CONVERTERS st = LANGUAGE_CONVERTERS st' ->
  Language_dict st = Language_dict st' ->
  st = st'.
Proof. destruct st, st'; simpl. by intros -> ->. Qed.

(** X1. The two [ValueError]s of the registry: registering raises
    'already exists' exactly for a bound name and unregistering raises 'does
    not exist' exactly for an unbound one; no other [ValueError] comes out of
    either call, and both leave the registry and the class as they were. *)
Theorem registry_value_errors (name : string) (converter : Converter) (st : State) :
  (is_Some (LANGUAGE_CONVERTERS st !! name) <->
   register_language_converter name converter st
   = (Raise (ValueError (ConverterExists name)), st)) /\
  (LANGUAGE_CONVERTERS st !! name = None <->
   unregister_language_converter name st
   = (Raise (ValueError (ConverterMissing name)), st)) /\
  (forall msg st',
     register_language_converter name converter st = (Raise (ValueError msg), st') ->
     msg = ConverterExists name /\ st' = st) /\
  (forall msg st',
     unregister_language_converter name st = (Raise (ValueError msg), st') ->
     msg = ConverterMissing name /\ st' = st).
Proof.
  unfold register_language_converter, unregister_language_converter.
  destruct (LANGUAGE_CONVERTERS st !! name) as [c|] eqn:Hname.
  - split; [split; [done | by eexists]|].
    split; [split; [done|]|].
    + destruct (is_reverse c); [destruct (Language_dict st !! from_name name)|];
        discriminate.
    + split; [by intros msg st' [= <- <-]|].
      intros msg st'.
      destruct (is_reverse c); [destruct (Language_dict st !! from_name name)|];
        discriminate.
  - split; [split; [by intros [? ?]|]|].
    + destruct (is_reverse converter); simpl;
        [destruct (Language_dict st !! "fromcode")|]; discriminate.
    + split; [done|]. split; [|by intros msg st' [= <- <-]].
      intros msg st'.
      destruct (is_reverse converter); simpl;
        [destruct (Language_dict st !! "fromcode")|]; discriminate.
Qed.

(** X2. A converter that has just been registered is the one that
    [get_language_converter] returns, with no discovery and no change of
    state, whatever the entry points are. *)
Theorem register_then_get (name : string) (converter : Converter) (st st' : State) :
  register_language_converter name converter st = (Ok tt, st') ->
  LANGUAGE_CONVERTERS st' !! name = Some converter /\
  get_language_converter entry_points name st' = (Ok converter, st') /\
  (is_reverse converter = true -> from_constructor st' name).
Proof.
  intros H. apply register_language_converter_ok in H as (_ & Hc & Hd).
  assert (Hb : LANGUAGE_CONVERTERS st' !! name = Some converter)
    by (by rewrite Hc, lookup_insert_eq).
  split; [done|]. split.
  - by apply get_language_converter_bound.
  - intros Hrev. unfold from_constructor. by rewrite Hd, Hrev, lookup_insert_eq.
Qed.

(** X3. After a name has been unregistered it is unbound: looking it up
    goes back to discovery and raises [KeyError] when no entry point has the
    name, and the name can be registered again without a duplicate error. *)
Theorem unregister_then_get (name : string) (st st' : State) :
  unregister_language_converter name st = (Ok tt, st') ->
  LANGUAGE_CONVERTERS st' !! name = None /\
  (find_entry_point name entry_points = None ->
   get_language_converter entry_points name st' = (Raise (KeyError name), st')) /\
  (forall converter,
     register_language_converter name converter st'
     <> (Raise (ValueError (ConverterExists name)), st')).
Proof.
  intros H. apply unregister_language_converter_ok in H as (c & _ & Hc & _).
  assert (Hn : LANGUAGE_CONVERTERS st' !! name = None)
    by (by rewrite Hc, lookup_delete_eq).
  split; [done|]. split.
  - by apply get_language_converter_unknown.
  - intros converter Hdup. revert Hdup.
    unfold register_language_converter. rewrite Hn.
    destruct (is_reverse converter); simpl;
      [destruct (Language_dict st' !! "fromcode")|]; discriminate.
Qed.

(** X4. Registering and then unregistering a name restores the state
    exactly, provided the attribute ['from' + name] was free before (the
    condition matters only for a reverse-capable converter). *)
Theorem register_unregister_roundtrip (name : string) (converter : Converter)
    (st st1 : State) :
  (is_reverse converter = true -> Language_dict st !! from_name name = None) ->
  register_language_converter name converter st = (Ok tt, st1) ->
  unregister_language_converter name st1 = (Ok tt, st).
Proof.
  intros Hfree H. apply register_language_converter_ok in H as (Hname & Hc & Hd).
  unfold unregister_language_converter.
  rewrite Hc, lookup_insert_eq.
  destruct (is_reverse converter) eqn:Hrev.
  - rewrite Hd, lookup_insert_eq. f_equal. apply State_eq; simpl.
    + by rewrite Hc, delete_insert_id.
    + rewrite Hd. by rewrite delete_insert_id by auto.
  - f_equal. apply State_eq; simpl.
    + by rewrite Hc, delete_insert_id.
    + done.
Qed.

(** X5. [get_language_converter] raises [KeyError] exactly when the name
    is neither bound nor among the entry points; the error carries the name
    and the state is untouched. *)
Theorem get_language_converter_KeyError (name : string) (st : State) :
  (LANGUAGE_CONVERTERS st !! name = None /\
   find_entry_point name entry_points = None) <->
  (exists key st', get_language_converter entry_points name st
                   = (Raise (KeyError key), st')).
Proof.
  split.
  - intros [Hn Hep]. exists name, st. by apply get_language_converter_unknown.
  - intros (key & st' & H). revert H. unfold get_language_converter.
    destruct (LANGUAGE_CONVERTERS st !! name) as [c|] eqn:Hname; [discriminate|].
    destruct (find_entry_point name entry_points) as [c|] eqn:Hep; [|done].
    unfold bind, converters_getitem.
    destruct (register_language_converter name c st) as [[[]|e] st1] eqn:Hreg.
    + apply register_language_converter_ok in Hreg as (_ & Hc & _).
      by rewrite Hc, lookup_insert_eq.
    + intros [= -> <-]. revert Hreg. unfold register_language_converter.
      rewrite Hname. destruct (is_reverse c); simpl;
        [destruct (Language_dict st !! "fromcode")|]; discriminate.
Qed.

(** X6. Lookup is cached and only ever adds: a converter obtained once is
    returned again without any change of state, and whatever the outcome of
    a lookup, every binding that was in the registry is still there. *)
Theorem get_language_converter_cached (name : string) (st : State) :
  (forall c st',
     get_language_converter entry_points name st = (Ok c, st') ->
     LANGUAGE_CONVERTERS st' !! name = Some c /\
     get_language_converter entry_points name st' = (Ok c, st')) /\
  (forall n c0,
     LANGUAGE_CONVERTERS st !! n = Some c0 ->
     LANGUAGE_CONVERTERS (snd (get_language_converter entry_points name st)) !! n
     = Some c0).
Proof.
  split.
  - intros c st' H.
    assert (Hb : LANGUAGE_CONVERTERS st' !! name = Some c).
    { revert H. unfold get_language_converter.
      destruct (LANGUAGE_CONVERTERS st !! name) as [c1|] eqn:Hname;
        [by intros [= <- <-]|].
      destruct (find_entry_point name entry_points) as [c1|]; [|discriminate].
      unfold bind, converters_getitem.
      destruct (register_language_converter name c1 st) as [[[]|e] st1];
        [|discriminate].
      destruct (LANGUAGE_CONVERTERS st1 !! name) eqn:E; [|discriminate].
      by intros [= <- <-]. }
    split; [done|]. by apply get_language_converter_bound.
  - intros n c0 Hn. unfold get_language_converter.
    destruct (LANGUAGE_CONVERTERS st !! name) as [c1|] eqn:Hname; [done|].
    destruct (find_entry_point name entry_points) as [c1|]; [|done].
    assert (Hne : name <> n) by congruence.
    unfold bind, converters_getitem, register_language_converter. rewrite Hname.
    destruct (is_reverse c1); simpl.
    + destruct (Language_dict st !! "fromcode"); simpl.
      * rewrite lookup_insert_eq. simpl. by rewrite lookup_insert_ne.
      * by rewrite lookup_insert_ne.
    + rewrite lookup_insert_eq. simpl. by rewrite lookup_insert_ne.
Qed.

End RegistryLaws.

(** ** Loading and clearing *)

Section BulkLaws.

Lemma find_entry_point_first (name : string) (c : Converter)
    (eps : list (string * Converter)) :
  find_entry_point name ((name, c) :: eps) = Some c.
Proof. simpl. by rewrite String.eqb_refl. Qed.

Lemma find_entry_point_later (name n : string) (c : Converter)
    (eps : list (string * Converter)) :
  n <> name ->
  find_entry_point name ((n, c) :: eps) = find_entry_point name eps.
Proof. intros H. simpl. apply String.eqb_neq in H. by rewrite H. Qed.

Lemma find_entry_point_None (name : string) (eps : list (string * Converter)) :
  name ∉ eps.*1 -> find_entry_point name eps = None.
Proof.
  induction eps as [|[n c] eps IH]; [done|].
  rewrite fmap_cons, not_elem_of_cons. intros [Hne Hnot]. simpl in Hne.
  rewrite find_entry_point_later by done. by apply IH.
Qed.

Lemma register_all_ok (eps : list (string * Converter)) (st : State) :
  NoDup eps.*1 ->
  (forall n, n ∈ eps.*1 -> LANGUAGE_CONVERTERS st !! n = None) ->
  registry_inv st ->
  exists st',
    register_all eps st = (Ok tt, st') /\
    registry_inv st' /\
    forall n, LANGUAGE_CONVERTERS st' !! n =
              match find_entry_point n eps with
              | Some c => Some c
              | None => LANGUAGE_CONVERTERS st !! n
              end.
Proof.
  revert st. induction eps as [|[name c] eps IH]; intros st Hnd Hfree Hinv.
  - exists st. split; [done|]. by split.
  - rewrite fmap_cons in Hnd. apply NoDup_cons in Hnd as [Hnotin Hnd].
    assert (Hname : LANGUAGE_CONVERTERS st !! name = None).
    { apply Hfree. rewrite fmap_cons. by left. }
    pose proof (registry_inv_register name c st Hinv) as Hinv1.
    destruct (register_language_converter name c st) as [[[]|e] st1] eqn:Hreg.
    + simpl in Hinv1.
      pose proof (register_language_converter_ok name c st st1 Hreg) as (_ & Hc & _).
      destruct (IH st1 Hnd) as (st' & Hall & Hinv' & Hlook); [|done|].
      { intros n Hn. rewrite Hc, lookup_insert_ne; [|by intros ->].
        apply Hfree. rewrite fmap_cons. by right. }
      exists st'. split; [|split; [done|]].
      * simpl. unfold bind. by rewrite Hreg.
      * intros n. rewrite Hlook. destruct (decide (name = n)) as [<-|Hne].
        -- rewrite find_entry_point_first, (find_entry_point_None name eps Hnotin).
           by rewrite Hc, lookup_insert_eq.
        -- rewrite (find_entry_point_later n name c eps Hne).
           destruct (find_entry_point n eps); [done|].
           by rewrite Hc, lookup_insert_ne.
    + exfalso. revert Hreg. unfold register_language_converter. rewrite Hname.
      destruct Hinv as [_ [v Hv]].
      destruct (is_reverse c); simpl; [rewrite Hv|]; discriminate.
Qed.

(** X7. Loading into a registry that holds none of the entry-point names
    (the names being distinct) registers every entry point: afterwards a name
    is bound to the converter of its entry point, every other binding is as
    before, and the attached constructors still match the registry.  This is
    so in particular on the state the module starts in. *)
Theorem load_language_converters_ok (entry_points : list (string * Converter))
    (st : State) :
  NoDup entry_points.*1 ->
  (forall n, n ∈ entry_points.*1 -> LANGUAGE_CONVERTERS st !! n = None) ->
  registry_inv st ->
  exists st',
    load_language_converters entry_points st = (Ok tt, st') /\
    registry_matches st' /\
    forall n, LANGUAGE_CONVERTERS st' !! n =
              match find_entry_point n entry_points with
              | Some c => Some c
              | None => LANGUAGE_CONVERTERS st !! n
              end.
Proof.
  intros Hnd Hfree Hinv.
  destruct (register_all_ok entry_points st Hnd Hfree Hinv)
    as (st' & Hall & [Hm _] & Hlook).
  by exists st'.
Qed.

Lemma register_all_keeps (eps : list (string * Converter)) (st st' : State)
    (n : string) (c : Converter) :
  register_all eps st = (Ok tt, st') ->
  LANGUAGE_CONVERTERS st !! n = Some c ->
  LANGUAGE_CONVERTERS st' !! n = Some c.
Proof.
  revert st. induction eps as [|[name c1] eps IH]; intros st; simpl.
  - by intros [= <-].
  - unfold bind.
    destruct (register_language_converter name c1 st) as [[[]|e] st1] eqn:Hreg;
      [|discriminate].
    intros Hall Hn. apply (IH st1 Hall).
    apply register_language_converter_ok in Hreg as (Hname & Hc & _).
    rewrite Hc, lookup_insert_ne; [done|]. intros ->. congruence.
Qed.

(** X8. Loading is not idempotent: after a load that succeeded, a second
    load raises the duplicate error for the first entry point and changes
    nothing. *)
Theorem load_language_converters_twice (name : string) (converter : Converter)
    (eps : list (string * Converter)) (st st' : State) :
  load_language_converters ((name, converter) :: eps) st = (Ok tt, st') ->
  load_language_converters ((name, converter) :: eps) st'
  = (Raise (ValueError (ConverterExists name)), st').
Proof.
  unfold load_language_converters. simpl. unfold bind.
  destruct (register_language_converter name converter st) as [[[]|e] st1] eqn:Hreg;
    [|discriminate].
  intros Hall.
  pose proof (register_language_converter_ok name converter st st1 Hreg)
    as (_ & Hc & _).
  assert (Hb : LANGUAGE_CONVERTERS st1 !! name = Some converter)
    by (by rewrite Hc, lookup_insert_eq).
  pose proof (register_all_keeps eps st1 st' name converter Hall Hb) as Hb'.
  unfold register_language_converter. by rewrite Hb'.
Qed.

Lemma registry_matches_unregister (name : string) (c : Converter) (st : State) :
  registry_matches st ->
  LANGUAGE_CONVERTERS st !! name = Some c ->
  exists st',
    unregister_language_converter name st = (Ok tt, st') /\
    registry_matches st' /\
    LANGUAGE_CONVERTERS st' = delete name (LANGUAGE_CONVERTERS st).
Proof.
  intros Hm Hname. unfold unregister_language_converter. rewrite Hname.
  destruct (is_reverse c) eqn:Hrev.
  - assert (Hf : from_constructor st name) by (apply Hm; by exists c).
    unfold from_constructor in Hf. rewrite Hf.
    eexists. split; [done|]. split; [|done].
    intros n. unfold from_constructor, bound_reverse; simpl.
    destruct (decide (name = n)) as [->|Hne].
    + rewrite !lookup_delete_eq. split; [done|]. by intros (c' & ? & _).
    + rewrite !lookup_delete_ne by (done || by apply from_name_ne). apply Hm.
  - eexists. split; [done|]. split; [|done].
    intros n. unfold from_constructor, bound_reverse; simpl.
    destruct (decide (name = n)) as [->|Hne].
    + rewrite lookup_delete_eq. split; [|by intros (c' & ? & _)].
      intros H. apply Hm in H as (c' & Hc' & Hr). congruence.
    + rewrite lookup_delete_ne by done. apply Hm.
Qed.

Lemma unregister_all_ok (names : list string) (st : State) :
  registry_matches st ->
  NoDup names ->
  (forall n, n ∈ names <-> is_Some (LANGUAGE_CONVERTERS st !! n)) ->
  exists st',
    unregister_all names st = (Ok tt, st') /\
    LANGUAGE_CONVERTERS st' = ∅ /\
    registry_matches st'.
Proof.
  revert st. induction names as [|name names IH]; intros st Hm Hnd Hkeys.
  - exists st. split; [done|]. split; [|done].
    apply map_empty. intros n. apply eq_None_not_Some. rewrite <- Hkeys.
    apply not_elem_of_nil.
  - apply NoDup_cons in Hnd as [Hnotin Hnd].
    destruct (proj1 (Hkeys name)) as [c Hc]; [by left|].
    destruct (registry_matches_unregister name c st Hm Hc) as (st1 & Hun & Hm1 & Hc1).
    destruct (IH st1 Hm1 Hnd) as (st' & Hall & Hempty & Hm').
    { intros n. rewrite Hc1. destruct (decide (name = n)) as [<-|Hne].
      - rewrite lookup_delete_eq. split; [done | by intros [? ?]].
      - rewrite lookup_delete_ne by done. rewrite <- Hkeys, elem_of_cons.
        split; [by right | by intros [->|?]]. }
    exists st'. split; [|done]. simpl. unfold bind. by rewrite Hun.
Qed.

(** X9. Clearing empties the registry whenever the attached constructors
    match it, in whatever order the names are visited: every
    unregistration succeeds, no binding is left and no attached constructor
    is left on [Language]. *)
Theorem clear_language_converters_ok (st : State) :
  registry_matches st ->
  (forall names,
     NoDup names ->
     (forall n, n ∈ names <-> is_Some (LANGUAGE_CONVERTERS st !! n)) ->
     exists st',
       unregister_all names st = (Ok tt, st') /\
       LANGUAGE_CONVERTERS st' = ∅ /\
       forall n, ~ from_constructor st' n) /\
  (exists st',
     clear_language_converters st = (Ok tt, st') /\
     LANGUAGE_CONVERTERS st' = ∅ /\
     forall n, ~ from_constructor st' n).
Proof.
  intros Hm.
  assert (Hgen : forall names,
            NoDup names ->
            (forall n, n ∈ names <-> is_Some (LANGUAGE_CONVERTERS st !! n)) ->
            exists st',
              unregister_all names st = (Ok tt, st') /\
              LANGUAGE_CONVERTERS st' = ∅ /\
              forall n, ~ from_constructor st' n).
  { intros names Hnd Hkeys.
    destruct (unregister_all_ok names st Hm Hnd Hkeys) as (st' & Hall & He & Hm').
    exists st'. split; [done|]. split; [done|].
    intros n Hf. apply Hm' in Hf as (c & Hc & _). by rewrite He, lookup_empty in Hc. }
  split; [exact Hgen|].
  unfold clear_language_converters. apply Hgen.
  - apply NoDup_elements.
  - intros n. by rewrite elem_of_elements, elem_of_dom.
Qed.

End BulkLaws.

(** ** Laws of construction and comparison *)

Section LanguageLaws.

Variable LANGUAGE_MATRIX : list IsoLanguage.
Variable COUNTRIES : gset string.
Variable SCRIPTS : gset string.
Variable entry_points : list (string * Converter).

Abbreviation LANGS' := (LANGUAGES LANGUAGE_MATRIX).
Abbreviation init' := (Language_init LANGUAGE_MATRIX COUNTRIES SCRIPTS).
Abbreviation wf' := (Language_wf LANGUAGE_MATRIX COUNTRIES SCRIPTS).
Abbreviation effective' := (effective_code LANGUAGE_MATRIX).

Lemma country_of_arg_ok (a : option CountryArg) (oc : option Country) :
  country_of_arg COUNTRIES a = Ok oc ->
  country_arg_valid COUNTRIES a ->
  (forall k, oc = Some k -> country_alpha2 k ∈ COUNTRIES) /\
  country_alpha2 <$> oc =
  match a with
  | Some (CountryInstance c) => Some (country_alpha2 c)
  | Some (CountryCode code) => Some code
  | None => None
  end.
Proof.
  destruct a as [[c|code]|]; simpl.
  - intros [= <-] Hv. split; [|done]. intros k [= <-]. by apply Hv.
  - unfold Country_init. destruct (decide (code ∈ COUNTRIES)); simpl; [|discriminate].
    intros [= <-] _. split; [|done]. by intros k [= <-].
  - intros [= <-] _. by split.
Qed.

Lemma script_of_arg_ok (a : option ScriptArg) (os : option Script) :
  script_of_arg SCRIPTS a = Ok os ->
  script_arg_valid SCRIPTS a ->
  (forall k, os = Some k -> script_code k ∈ SCRIPTS) /\
  script_code <$> os =
  match a with
  | Some (ScriptInstance s) => Some (script_code s)
  | Some (ScriptCode code) => Some code
  | None => None
  end.
Proof.
  destruct a as [[c|code]|]; simpl.
  - intros [= <-] Hv. split; [|done]. intros k [= <-]. by apply Hv.
  - unfold Script_init. destruct (decide (code ∈ SCRIPTS)); simpl; [|discriminate].
    intros [= <-] _. split; [|done]. by intros k [= <-].
  - intros [= <-] _. by split.
Qed.

Lemma Language_init_ok (language : string) co sc unknown (l : Language) :
  init' language co sc unknown = Ok l ->
  effective' language unknown ∈ LANGS' /\
  alpha3 l = effective' language unknown /\
  country_of_arg COUNTRIES co = Ok (country l) /\
  script_of_arg SCRIPTS sc = Ok (script l).
Proof.
  unfold Language_init.
  destruct (decide (effective' language unknown ∈ LANGS')) as [Hin|]; [|discriminate].
  destruct (country_of_arg COUNTRIES co) as [oc|]; simpl; [|discriminate].
  destruct (script_of_arg SCRIPTS sc) as [os|]; simpl; [|discriminate].
  by intros [= <-].
Qed.

(** X10. What construction guarantees: a [Language] that [__init__]
    returns has its language code in [LANGUAGES] (the given code, or the
    fallback when the given code is invalid), and its country and script are
    those asked for, with codes in their tables. *)
Theorem Language_init_wf (language : string) co sc unknown (l : Language) :
  country_arg_valid COUNTRIES co -> script_arg_valid SCRIPTS sc ->
  init' language co sc unknown = Ok l ->
  wf' l /\
  (alpha3 l = language \/
   ((language ∉ LANGS') /\ unknown = Some (alpha3 l))) /\
  country_alpha2 <$> country l =
  match co with
  | Some (CountryInstance c) => Some (country_alpha2 c)
  | Some (CountryCode code) => Some code
  | None => None
  end /\
  script_code <$> script l =
  match sc with
  | Some (ScriptInstance s) => Some (script_code s)
  | Some (ScriptCode code) => Some code
  | None => None
  end.
Proof.
  intros Hco Hsc H. apply Language_init_ok in H as (Hin & Ha & Hc & Hs).
  destruct (country_of_arg_ok co (country l) Hc Hco) as [Hcv Hcc].
  destruct (script_of_arg_ok sc (script l) Hs Hsc) as [Hsv Hss].
  split; [|split; [|by split]].
  - split; [by rewrite Ha | by split].
  - rewrite Ha. unfold effective_code.
    destruct unknown as [u|]; [|by left].
    destruct (decide (language ∈ LANGS')); [by left | right].
    by split.
Qed.

(** X11. Construction raises nothing but the [ValueError] that names the
    first invalid code, in the order language, country, script. *)
Theorem Language_init_errors (language : string) co sc unknown (e : exn) :
  init' language co sc unknown = Raise e ->
  let code := effective' language unknown in
  ((code ∉ LANGS') /\ e = ValueError (NotValidLanguage code)) \/
  (code ∈ LANGS' /\
   exists k, co = Some (CountryCode k) /\ (k ∉ COUNTRIES) /\
             e = ValueError (NotValidCountry k)) \/
  (code ∈ LANGS' /\
   (exists oc, country_of_arg COUNTRIES co = Ok oc) /\
   exists k, sc = Some (ScriptCode k) /\ (k ∉ SCRIPTS) /\
             e = ValueError (NotValidScript k)).
Proof.
  intros H code. revert H. unfold Language_init. fold code.
  destruct (decide (code ∈ LANGS')) as [Hin|Hout].
  - destruct (country_of_arg COUNTRIES co) as [oc|e'] eqn:Hc; simpl.
    + destruct (script_of_arg SCRIPTS sc) as [os|e'] eqn:Hs; simpl; [discriminate|].
      intros [= <-]. right; right. split; [done|]. split; [by exists oc|].
      destruct sc as [[s|k]|]; simpl in Hs; try discriminate.
      unfold Script_init in Hs.
      destruct (decide (k ∈ SCRIPTS)); simpl in Hs; [discriminate|].
      injection Hs as <-. by exists k.
    + intros [= <-]. right; left. split; [done|].
      destruct co as [[c|k]|]; simpl in Hc; try discriminate.
      unfold Country_init in Hc.
      destruct (decide (k ∈ COUNTRIES)); simpl in Hc; [discriminate|].
      injection Hc as <-. by exists k.
  - intros [= <-]. by left.
Qed.

(** A raw country or script code and the instance built from it construct
    the same language. *)
Theorem Language_init_code_or_instance (language : string) unknown :
  (forall k c sc,
     Country_init COUNTRIES k = Ok c ->
     init' language (Some (CountryCode k)) sc unknown
     = init' language (Some (CountryInstance c)) sc unknown) /\
  (forall k s co,
     Script_init SCRIPTS k = Ok s ->
     init' language co (Some (ScriptCode k)) unknown
     = init' language co (Some (ScriptInstance s)) unknown).
Proof.
  split.
  - intros k c sc Hk. unfold Language_init. simpl. by rewrite Hk.
  - intros k s co Hk. unfold Language_init. simpl. by rewrite Hk.
Qed.

Lemma Language_eq_true (l l' : Language) :
  Language_eq l (Some l') = true <-> l = l'.
Proof.
  split; [|intros <-; apply Language_eq_refl].
  unfold Language_eq. intros H.
  apply andb_prop in H as [H Hs]. apply andb_prop in H as [Ha Hc].
  apply String.eqb_eq in Ha.
  destruct l as [a [[c]|] [[s]|]], l' as [a' [[c']|] [[s']|]]; simpl in *;
    try discriminate; subst;
    repeat match goal with
           | H : String.eqb _ _ = true |- _ => apply String.eqb_eq in H; subst
           end; reflexivity.
Qed.

(** X12. [==] on languages is equality of the three codes: it holds
    exactly for languages with the same language, country and script, never
    against [None], [!=] is its negation, and languages that compare equal
    have the same hash. *)
Theorem Language_eq_spec (hash : string -> Z) (l l' : Language) :
  (Language_eq l (Some l') = true <->
   alpha3 l = alpha3 l' /\
   country_alpha2 <$> country l = country_alpha2 <$> country l' /\
   script_code <$> script l = script_code <$> script l') /\
  Language_eq l None = false /\
  Language_eq l (Some l') = Language_eq l' (Some l) /\
  Language_ne l (Some l') = negb (Language_eq l (Some l')) /\
  (Language_eq l (Some l') = true ->
   forall st, Language_hash entry_points hash l st
              = Language_hash entry_points hash l' st).
Proof.
  split; [|split; [done|split; [|split; [done|]]]].
  - rewrite Language_eq_true. split; [by intros <-|].
    destruct l as [a [[c]|] [[s]|]], l' as [a' [[c']|] [[s']|]]; simpl;
      intros (Ha & Hc & Hs); try discriminate; congruence.
  - destruct (Language_eq l (Some l')) eqn:E.
    + apply Language_eq_true in E as <-. symmetry. apply Language_eq_refl.
    + destruct (Language_eq l' (Some l)) eqn:E'; [|done].
      apply Language_eq_true in E' as <-. by rewrite Language_eq_refl in E.
  - intros H st. by apply Language_eq_true in H as <-.
Qed.

(** X13. Truthiness after construction: a constructed language is falsy
    exactly when the code that construction settled on is ['und'], so an
    unrecognized code with the fallback ['und'] gives a falsy language. *)
Theorem Language_bool_init (language : string) co sc unknown (l : Language) :
  init' language co sc unknown = Ok l ->
  (Language_bool l = false <-> effective' language unknown = "und") /\
  (language ∉ LANGS' -> unknown = Some "und" -> Language_bool l = false).
Proof.
  intros H. apply Language_init_ok in H as (_ & Ha & _).
  assert (Hb : Language_bool l = false <-> effective' language unknown = "und").
  { unfold Language_bool. rewrite Ha, negb_false_iff. apply String.eqb_eq. }
  split; [done|].
  intros Hout ->. apply Hb. unfold effective_code. by rewrite decide_False.
Qed.

End LanguageLaws.

(** ** Laws of the parser and of the conversions *)

Section ParserLaws.

Variable LANGUAGE_MATRIX : list IsoLanguage.
Variable COUNTRIES : gset string.
Variable SCRIPTS : gset string.
Variable entry_points : list (string * Converter).

Abbreviation LANGS := (LANGUAGES LANGUAGE_MATRIX).
Abbreviation init := (Language_init LANGUAGE_MATRIX COUNTRIES SCRIPTS).
Abbreviation wf := (Language_wf LANGUAGE_MATRIX COUNTRIES SCRIPTS).
Abbreviation loop := (fromietf_loop COUNTRIES SCRIPTS).
Abbreviation fromcode :=
  (Language_fromcode LANGUAGE_MATRIX COUNTRIES SCRIPTS entry_points).
Abbreviation fromietf :=
  (Language_fromietf LANGUAGE_MATRIX COUNTRIES SCRIPTS entry_points).
Abbreviation language_of :=
  (fromietf_language LANGUAGE_MATRIX COUNTRIES SCRIPTS entry_points).
Abbreviation getattr := (Language_getattr entry_points).
Abbreviation str := (Language_str entry_points).
Abbreviation get := (get_language_converter entry_points).

Lemma Language_init_codes (a : string) (co sc : option string) (l : Language) :
  init a (CountryCode <$> co) (ScriptCode <$> sc) None = Ok l ->
  wf l /\ alpha3 l = a /\
  country_alpha2 <$> country l = co /\ script_code <$> script l = sc.
Proof.
  intros H.
  apply Language_init_ok in H as (Hin & Ha & Hc & Hs). simpl in Hin, Ha.
  destruct (country_of_arg_ok COUNTRIES _ _ Hc) as [Hcv Hcc];
    [by intros c; destruct co|].
  destruct (script_of_arg_ok SCRIPTS _ _ Hs) as [Hsv Hss];
    [by intros c; destruct sc|].
  split; [split; [by rewrite Ha | by split]|].
  split; [done|].
  split; [rewrite Hcc; by destruct co | rewrite Hss; by destruct sc].
Qed.

Lemma loop_wf (subtags : list string) (language r : Language) :
  wf language -> loop language subtags = Ok r -> wf r.
Proof.
  revert language. induction subtags as [|x xs IH]; intros language Hwf; simpl.
  - by intros [= <-].
  - destruct (Nat.eqb (PyStr.len x) 2).
    + unfold Country_init.
      destruct (decide (PyStr.upper x ∈ COUNTRIES)) as [Hin|]; simpl; [|discriminate].
      assert (Hwf' : wf (with_country {| country_alpha2 := PyStr.upper x |} language)).
      { destruct Hwf as (Ha & Hc & Hs). split; [done|]. split; [|done].
        by intros k [= <-]. }
      destruct (script language).
      * destruct xs; [by intros [= <-] | discriminate].
      * by apply IH.
    + unfold Script_init.
      destruct (decide (PyStr.capitalize x ∈ SCRIPTS)) as [Hin|]; simpl; [|discriminate].
      destruct xs; [|discriminate]. intros [= <-].
      destruct Hwf as (Ha & Hc & Hs). split; [done|]. split; [done|].
      by intros k [= <-].
Qed.

Lemma fromcode_wf (code name : string) (l : Language) (st st' : State) :
  fromcode code name st = (Ok l, st') -> wf l.
Proof.
  unfold Language_fromcode, bind, lift, raise.
  destruct (get name st) as [[c|e] st1]; [|discriminate].
  destruct (reverse c) as [rev|]; [|discriminate].
  destruct (rev code) as [[[a co] sc]|e]; [|discriminate].
  intros [= H _]. by apply Language_init_codes in H as [H _].
Qed.

Lemma language_of_wf (tag : string) (l : Language) (st st' : State) :
  language_of tag st = (Ok l, st') -> wf l.
Proof.
  unfold fromietf_language. destruct (Nat.eqb (PyStr.len tag) 2).
  - unfold Language_fromalpha2.
    destruct (Language_dict st !! "fromalpha2") as [[|n]|]; try discriminate.
    apply fromcode_wf.
  - unfold lift. intros [= H _].
    by apply (Language_init_codes tag None None) in H as [H _].
Qed.

(** X14. Every language that [fromcode] or [fromietf] returns went through
    the constructor: its language, country and script codes are in their
    tables, whatever the converter returned and whatever the tag was. *)
Theorem parsed_language_wf (l : Language) (st st' : State) :
  (forall code name, fromcode code name st = (Ok l, st') -> wf l) /\
  (forall ietf, fromietf ietf st = (Ok l, st') -> wf l).
Proof.
  split; [intros code name; apply fromcode_wf|].
  intros ietf. unfold Language_fromietf.
  destruct (PyStr.split hyphen ietf) as [|first subtags]; [discriminate|].
  unfold bind, lift.
  destruct (language_of (PyStr.lower first) st) as [[language|e] st1] eqn:Hl;
    [|discriminate].
  intros [= H _]. apply language_of_wf in Hl. by apply (loop_wf subtags language).
Qed.

Lemma loop_ok_shape (subtags : list string) (language r : Language) :
  script language = None ->
  loop language subtags = Ok r ->
  (Forall (country_subtag COUNTRIES) subtags /\
   r = overwrite_countries language subtags) \/
  (exists pre s,
     subtags = (pre ++ [s])%list /\
     Forall (country_subtag COUNTRIES) pre /\
     script_subtag SCRIPTS s /\
     r = with_script {| script_code := PyStr.capitalize s |}
           (overwrite_countries language pre)).
Proof.
  revert language. induction subtags as [|x xs IH]; intros language Hnone; simpl.
  - intros [= <-]. by left.
  - destruct (Nat.eqb (PyStr.len x) 2) eqn:Hlen.
    + apply Nat.eqb_eq in Hlen. unfold Country_init.
      destruct (decide (PyStr.upper x ∈ COUNTRIES)) as [Hin|]; simpl; [|discriminate].
      rewrite Hnone. intros H.
      destruct (IH (with_country {| country_alpha2 := PyStr.upper x |} language)
                   Hnone H) as [[Hall ->] | (pre & s & -> & Hall & Hs & ->)].
      * left. split; [|done]. by constructor.
      * right. exists (x :: pre), s. split; [done|]. split; [by constructor|]. done.
    + apply Nat.eqb_neq in Hlen. unfold Script_init.
      destruct (decide (PyStr.capitalize x ∈ SCRIPTS)) as [Hin|]; simpl; [|discriminate].
      destruct xs; [|discriminate]. intros [= <-].
      right. exists [], x. by repeat split.
Qed.

(** X15. The tags that the loop accepts, starting from a language without
    a script: any number of country subtags, followed by at most one script
    subtag.  The result carries the last country, if any, and that script,
    if any; nothing else parses. *)
Theorem fromietf_loop_grammar (language r : Language) (subtags : list string) :
  script language = None ->
  loop language subtags = Ok r <->
  (Forall (country_subtag COUNTRIES) subtags /\
   r = overwrite_countries language subtags) \/
  (exists pre s,
     subtags = (pre ++ [s])%list /\
     Forall (country_subtag COUNTRIES) pre /\
     script_subtag SCRIPTS s /\
     r = with_script {| script_code := PyStr.capitalize s |}
           (overwrite_countries language pre)).
Proof.
  intros Hnone. split; [by apply loop_ok_shape|].
  intros [[Hall ->] | (pre & s & -> & Hall & Hs & ->)].
  - pose proof (loop_countries COUNTRIES SCRIPTS language subtags [] Hall Hnone) as E.
    by rewrite app_nil_r in E.
  - rewrite (loop_countries COUNTRIES SCRIPTS language pre [s] Hall Hnone).
    by rewrite (loop_script_step COUNTRIES SCRIPTS _ s [] Hs).
Qed.

(** X16. The first subtag that is not in its table ends the parse: after
    the language and a run of valid country subtags, a 2-character subtag
    whose upper-case form is no country raises the invalid-country error,
    and a subtag of another length whose capitalized form is no script
    raises the invalid-script error, whatever follows it.  An empty subtag,
    as a trailing hyphen leaves, is read as a script. *)
Theorem Language_fromietf_invalid_subtag (ietf first x : string)
    (pre rest : list string) (language : Language) (st st' : State) :
  PyStr.split hyphen ietf = (first :: pre ++ x :: rest)%list ->
  language_of (PyStr.lower first) st = (Ok language, st') ->
  script language = None ->
  Forall (country_subtag COUNTRIES) pre ->
  (PyStr.len x = 2 -> PyStr.upper x ∉ COUNTRIES ->
   fromietf ietf st = (Raise (ValueError (NotValidCountry (PyStr.upper x))), st')) /\
  (PyStr.len x <> 2 -> PyStr.capitalize x ∉ SCRIPTS ->
   fromietf ietf st
   = (Raise (ValueError (NotValidScript (PyStr.capitalize x))), st')) /\
  (x = "" -> "" ∉ SCRIPTS ->
   fromietf ietf st = (Raise (ValueError (NotValidScript "")), st')).
Proof.
  intros Hsplit Hlang Hnone Hall.
  pose proof (Language_fromietf_split LANGUAGE_MATRIX COUNTRIES SCRIPTS entry_points
                ietf first _ st Hsplit) as E.
  rewrite Hlang, (loop_countries COUNTRIES SCRIPTS language pre (x :: rest) Hall Hnone)
    in E.
  assert (Hscript : PyStr.len x <> 2 -> PyStr.capitalize x ∉ SCRIPTS ->
            fromietf ietf st
            = (Raise (ValueError (NotValidScript (PyStr.capitalize x))), st')).
  { intros Hlen Hout. rewrite E. simpl.
    apply Nat.eqb_neq in Hlen. rewrite Hlen.
    unfold Script_init. by rewrite decide_False. }
  split; [|split; [done|]].
  - intros Hlen Hout. rewrite E. simpl. rewrite Hlen. simpl.
    unfold Country_init. by rewrite decide_False.
  - intros -> Hout. by apply Hscript.
Qed.

(** X17. How [fromcode] fails: with [KeyError] for a scheme that is
    neither bound nor discoverable, with [AttributeError] for a converter
    without [reverse], with the converter's own failure when the code has no
    reverse mapping, and with the invalid-language [ValueError] when the
    converter returns a language code that is not in [LANGUAGES].  None of
    them touches the registry. *)
Theorem Language_fromcode_errors (code name : string) (st : State) :
  (LANGUAGE_CONVERTERS st !! name = None ->
   find_entry_point name entry_points = None ->
   fromcode code name st = (Raise (KeyError name), st)) /\
  (forall c,
     LANGUAGE_CONVERTERS st !! name = Some c ->
     (reverse c = None ->
      fromcode code name st = (Raise (AttributeError "reverse"), st)) /\
     (forall rev e,
        reverse c = Some rev -> rev code = Raise e ->
        fromcode code name st = (Raise e, st)) /\
     (forall rev a co sc,
        reverse c = Some rev -> rev code = Ok (a, co, sc) -> a ∉ LANGS ->
        fromcode code name st = (Raise (ValueError (NotValidLanguage a)), st))).
Proof.
  split.
  - intros Hn Hep. unfold Language_fromcode, bind.
    by rewrite (get_language_converter_unknown entry_points name st Hn Hep).
  - intros c Hc. split; [|split].
    + intros Hrev. unfold Language_fromcode, bind.
      by rewrite (get_language_converter_bound entry_points name c st Hc), Hrev.
    + intros rev e Hrev He.
      by rewrite (Language_fromcode_bound LANGUAGE_MATRIX COUNTRIES SCRIPTS
                    entry_points code name c rev st Hc Hrev), He.
    + intros rev a co sc Hrev Hr Hout.
      rewrite (Language_fromcode_bound LANGUAGE_MATRIX COUNTRIES SCRIPTS
                 entry_points code name c rev st Hc Hrev), Hr. simpl.
      by rewrite (Language_init_invalid LANGUAGE_MATRIX COUNTRIES SCRIPTS
                    a _ _ None Hout).
Qed.

(** X18. Symmetry of a scheme: the language that [fromcode] builds from a
    foreign code holds exactly the triple that [reverse] returned, and its
    attribute for the same scheme is [convert] of that triple; so when the
    converter maps the triple back to the code, the attribute is the code. *)
Theorem Language_fromcode_getattr (code name : string) (c : Converter)
    (rev : string -> result (string * option string * option string))
    (a : string) (co sc : option string) (l : Language) (st st' : State) :
  LANGUAGE_CONVERTERS st !! name = Some c ->
  reverse c = Some rev ->
  rev code = Ok (a, co, sc) ->
  fromcode code name st = (Ok l, st') ->
  st' = st /\
  alpha3 l = a /\
  country_alpha2 <$> country l = co /\
  script_code <$> script l = sc /\
  (convert c a co sc = Ok code -> getattr l name st = (Ok code, st)).
Proof.
  intros Hc Hrev Hr.
  rewrite (Language_fromcode_bound LANGUAGE_MATRIX COUNTRIES SCRIPTS
             entry_points code name c rev st Hc Hrev), Hr. simpl.
  intros [= H <-]. apply Language_init_codes in H as (_ & Ha & Hco & Hsc).
  repeat split; try done.
  intros Hconv.
  rewrite (Language_getattr_found entry_points l name c st st
             (get_language_converter_bound entry_points name c st Hc)).
  by rewrite Ha, Hco, Hsc, Hconv.
Qed.

(** X19. What never comes out: attribute access never raises [KeyError]
    (it is turned into [AttributeError]), and [str] raises neither
    [KeyError] nor a convert failure (the latter is the fallback to the
    [alpha3] code). *)
Theorem Language_getattr_str_never (self : Language) (name : string) (st : State) :
  (forall key st', getattr self name st <> (Raise (KeyError key), st')) /\
  (forall key st', str self st <> (Raise (KeyError key), st')) /\
  (forall x y z st', str self st <> (Raise (LanguageConvertError x y z), st')).
Proof.
  assert (H : forall n key st', getattr self n st <> (Raise (KeyError key), st')).
  { intros n key st'. unfold Language_getattr, except_KeyError.
    destruct (bind _ _ st) as [[v|[]] st1]; discriminate. }
  split; [apply H | split].
  - intros key st'. unfold Language_str.
    destruct (getattr self "alpha2" st) as [[v|e] st1] eqn:E; [discriminate|].
    destruct e as [| k | | | |]; try discriminate.
    by apply H in E.
  - intros x y z st'. unfold Language_str.
    destruct (getattr self "alpha2" st) as [[v|[]] st1]; discriminate.
Qed.

(** X20. Load on first use: for a name that is not bound but is among the
    entry points, attribute access registers the entry point's converter and
    answers with its [convert]; afterwards the name is bound, so the next
    access finds it without discovery. *)
Theorem Language_getattr_discovers (self : Language) (name : string)
    (c : Converter) (st : State) :
  LANGUAGE_CONVERTERS st !! name = None ->
  find_entry_point name entry_points = Some c ->
  is_Some (Language_dict st !! "fromcode") ->
  exists st',
    register_language_converter name c st = (Ok tt, st') /\
    get name st = (Ok c, st') /\
    LANGUAGE_CONVERTERS st' !! name = Some c /\
    get name st' = (Ok c, st') /\
    forall v,
      convert c (alpha3 self) (country_alpha2 <$> country self)
                (script_code <$> script self) = Ok v ->
      getattr self name st = (Ok v, st') /\ getattr self name st' = (Ok v, st').
Proof.
  intros Hn Hep [v0 Hfc].
  destruct (register_language_converter name c st) as [[[]|e] st'] eqn:Hreg.
  - exists st'.
    pose proof (register_language_converter_ok name c st st' Hreg) as (_ & Hc & _).
    assert (Hb : LANGUAGE_CONVERTERS st' !! name = Some c)
      by (by rewrite Hc, lookup_insert_eq).
    assert (Hget : get name st = (Ok c, st')).
    { unfold get_language_converter, bind, converters_getitem.
      by rewrite Hn, Hep, Hreg, Hb. }
    pose proof (get_language_converter_bound entry_points name c st' Hb) as Hget'.
    repeat split; try done.
    + by rewrite (Language_getattr_found entry_points self name c st st' Hget), H.
    + by rewrite (Language_getattr_found entry_points self name c st' st' Hget'), H.
  - exfalso. revert Hreg. unfold register_language_converter. rewrite Hn.
    destruct (is_reverse c); simpl; [rewrite Hfc|]; discriminate.
Qed.

(** X21. The only way these methods touch the process-wide state is the
    lookup of their scheme: the state after [__getattr__], [__str__],
    [__hash__], [__repr__] or [fromcode] is the state after
    [get_language_converter] of the name involved, and [fromietf] leaves the
    state alone unless the language subtag has two characters.  So they keep
    every binding of the registry and keep the attached constructors in
    step with it. *)
Theorem Language_methods_state (hash : string -> Z) (self : Language)
    (name code ietf : string) (st : State) :
  snd (getattr self name st) = snd (get name st) /\
  snd (str self st) = snd (get "alpha2" st) /\
  snd (Language_hash entry_points hash self st) = snd (get "alpha2" st) /\
  snd (Language_repr entry_points self st) = snd (get "alpha2" st) /\
  snd (fromcode code name st) = snd (get name st) /\
  (snd (fromietf ietf st) = st \/
   exists n, snd (fromietf ietf st) = snd (get n st)) /\
  (registry_inv st ->
   registry_inv (snd (str self st)) /\ registry_inv (snd (fromietf ietf st))).
Proof.
  assert (Hga : forall n, snd (getattr self n st) = snd (get n st)).
  { intros n. unfold Language_getattr, except_KeyError, bind, lift.
    destruct (get n st) as [[c|e] st1]; simpl.
    - by destruct (convert c _ _ _) as [v|[]].
    - by destruct e. }
  assert (Hstr : snd (str self st) = snd (get "alpha2" st)).
  { rewrite <- Hga. unfold Language_str.
    by destruct (getattr self "alpha2" st) as [[v|[]] st1]. }
  assert (Hfc : forall cd n, snd (fromcode cd n st) = snd (get n st)).
  { intros cd n. unfold Language_fromcode, bind, lift, raise.
    destruct (get n st) as [[c|e] st1]; simpl; [|done].
    destruct (reverse c) as [rev|]; [|done].
    by destruct (rev cd) as [[[a co] sc]|e]. }
  assert (Hietf : snd (fromietf ietf st) = st \/
                  exists n, snd (fromietf ietf st) = snd (get n st)).
  { unfold Language_fromietf.
    destruct (PyStr.split hyphen ietf) as [|first subtags]; [by left|].
    unfold bind, lift, fromietf_language.
    destruct (Nat.eqb (PyStr.len (PyStr.lower first)) 2).
    - unfold Language_fromalpha2.
      destruct (Language_dict st !! "fromalpha2") as [[|n]|]; try by left.
      right. exists n. rewrite <- (Hfc (PyStr.lower first) n).
      by destruct (fromcode (PyStr.lower first) n st) as [[l|e] st1].
    - left. by destruct (init (PyStr.lower first) None None None). }
  split; [apply Hga|]. split; [done|].
  split; [|split; [|split; [apply Hfc | split; [done|]]]].
  - rewrite <- Hstr. unfold Language_hash, bind, ret.
    by destruct (str self st) as [[s|e] st1].
  - rewrite <- Hstr. unfold Language_repr, bind, ret.
    by destruct (str self st) as [[s|e] st1].
  - intros Hinv. split.
    + rewrite Hstr. by apply registry_inv_get.
    + destruct Hietf as [-> | [n ->]]; [done | by apply registry_inv_get].
Qed.

End ParserLaws.

(** ** The laws at the instance of the unit tests *)

Lemma register_then_get_witness :
  LANGUAGE_CONVERTERS Demo.with_test !! "test" = Some Demo.TestConverter /\
  get_language_converter Demo.entry_points "test" Demo.with_test
  = (Ok Demo.TestConverter, Demo.with_test) /\
  (is_reverse Demo.TestConverter = true -> from_constructor Demo.with_test "test").
Proof.
  apply (register_then_get Demo.entry_points "test" Demo.TestConverter
           Demo.loaded Demo.with_test).
  vm_compute; reflexivity.
Defined.

Lemma unregister_then_get_witness :
  get_language_converter Demo.entry_points "test" Demo.loaded
  = (Raise (KeyError "test"), Demo.loaded).
Proof.
  apply (proj1 (proj2 (unregister_then_get Demo.entry_points "test"
                         Demo.with_test Demo.loaded
                         ltac:(vm_compute; reflexivity)))).
  reflexivity.
Defined.

Lemma register_unregister_roundtrip_witness :
  unregister_language_converter "test" Demo.with_test = (Ok tt, Demo.loaded).
Proof.
  apply (register_unregister_roundtrip "test" Demo.TestConverter Demo.loaded
           Demo.with_test).
  - intros _. vm_compute; reflexivity.
  - vm_compute; reflexivity.
Defined.

Lemma load_language_converters_ok_witness :
  exists st',
    load_language_converters Demo.entry_points initial_state = (Ok tt, st') /\
    registry_matches st' /\
    forall n, LANGUAGE_CONVERTERS st' !! n =
              match find_entry_point n Demo.entry_points with
              | Some c => Some c
              | None => LANGUAGE_CONVERTERS initial_state !! n
              end.
Proof.
  apply (load_language_converters_ok Demo.entry_points initial_state).
  - repeat constructor. simpl. apply not_elem_of_nil.
  - intros n _. apply lookup_empty.
  - apply registry_inv_initial.
Defined.

Lemma load_language_converters_twice_witness :
  load_language_converters Demo.entry_points Demo.loaded
  = (Raise (ValueError (ConverterExists "alpha2")), Demo.loaded).
Proof.
  apply (load_language_converters_twice "alpha2" Demo.alpha2 [] initial_state
           Demo.loaded).
  vm_compute; reflexivity.
Defined.

Lemma clear_language_converters_ok_witness :
  exists st',
    clear_language_converters Demo.with_test = (Ok tt, st') /\
    LANGUAGE_CONVERTERS st' = ∅ /\
    forall n, ~ from_constructor st' n.
Proof.
  apply (proj2 (clear_language_converters_ok Demo.with_test
                  (proj1 (registry_inv_register "test" Demo.TestConverter Demo.loaded
                            (registry_inv_register "alpha2" Demo.alpha2 initial_state
                               registry_inv_initial))))).
Defined.

Lemma Language_init_wf_witness :
  Language_wf Demo.LANGUAGE_MATRIX Demo.COUNTRIES Demo.SCRIPTS Demo.por_BR.
Proof.
  apply (proj1 (Language_init_wf Demo.LANGUAGE_MATRIX Demo.COUNTRIES Demo.SCRIPTS
                  "por" (Some (CountryCode "BR")) None None Demo.por_BR
                  ltac:(intros c; discriminate) ltac:(intros c; discriminate)
                  ltac:(vm_compute; reflexivity))).
Defined.

Lemma Language_init_errors_witness :
  ((effective_code Demo.LANGUAGE_MATRIX "fra" None ∉ LANGUAGES Demo.LANGUAGE_MATRIX) /\
   ValueError (NotValidCountry "YZ")
   = ValueError (NotValidLanguage (effective_code Demo.LANGUAGE_MATRIX "fra" None))) \/
  (effective_code Demo.LANGUAGE_MATRIX "fra" None ∈ LANGUAGES Demo.LANGUAGE_MATRIX /\
   exists k, Some (CountryCode "YZ") = Some (CountryCode k) /\ (k ∉ Demo.COUNTRIES) /\
             ValueError (NotValidCountry "YZ") = ValueError (NotValidCountry k)) \/
  (effective_code Demo.LANGUAGE_MATRIX "fra" None ∈ LANGUAGES Demo.LANGUAGE_MATRIX /\
   (exists oc, country_of_arg Demo.COUNTRIES (Some (CountryCode "YZ")) = Ok oc) /\
   exists k, @None ScriptArg = Some (ScriptCode k) /\ (k ∉ Demo.SCRIPTS) /\
             ValueError (NotValidCountry "YZ") = ValueError (NotValidScript k)).
Proof.
  apply (Language_init_errors Demo.LANGUAGE_MATRIX Demo.COUNTRIES Demo.SCRIPTS
           "fra" (Some (CountryCode "YZ")) None None).
  vm_compute; reflexivity.
Defined.

Lemma Language_bool_init_witness : Language_bool Demo.und = false.
Proof.
  apply (proj2 (Language_bool_init Demo.LANGUAGE_MATRIX Demo.COUNTRIES Demo.SCRIPTS
                  "zzzz" None None (Some "und") Demo.und
                  ltac:(vm_compute; reflexivity))).
  - by apply DemoFacts.languages_not_elem.
  - reflexivity.
Defined.

Lemma fromietf_loop_grammar_witness :
  fromietf_loop Demo.COUNTRIES Demo.SCRIPTS Demo.fra ["FR"; "latn"]
  = Ok {| alpha3 := "fra"; country := Some {| country_alpha2 := "FR" |};
          script := Some {| script_code := "Latn" |} |}.
Proof.
  apply (proj2 (fromietf_loop_grammar Demo.COUNTRIES Demo.SCRIPTS Demo.fra _
                  ["FR"; "latn"] eq_refl)).
  right. exists ["FR"], "latn". split; [reflexivity|]. split.
  - repeat constructor; try by apply DemoFacts.countries_elem.
  - split; [|reflexivity].
    split; [vm_compute; discriminate | by apply DemoFacts.scripts_elem].
Defined.

Lemma Language_fromietf_invalid_subtag_witness :
  Demo.Language_fromietf "fra-YZ" Demo.loaded
  = (Raise (ValueError (NotValidCountry "YZ")), Demo.loaded) /\
  Demo.Language_fromietf "fra-FR-Wxyz" Demo.loaded
  = (Raise (ValueError (NotValidScript "Wxyz")), Demo.loaded) /\
  Demo.Language_fromietf "fra-" Demo.loaded
  = (Raise (ValueError (NotValidScript "")), Demo.loaded).
Proof.
  split; [|split].
  - apply (proj1 (Language_fromietf_invalid_subtag
                    Demo.LANGUAGE_MATRIX Demo.COUNTRIES Demo.SCRIPTS Demo.entry_points
                    "fra-YZ" "fra" "YZ" [] [] Demo.fra Demo.loaded Demo.loaded
                    eq_refl eq_refl eq_refl ltac:(constructor))).
    + reflexivity.
    + apply (proj1 (bool_decide_eq_false _)). vm_compute; reflexivity.
  - apply (proj1 (proj2 (Language_fromietf_invalid_subtag
                    Demo.LANGUAGE_MATRIX Demo.COUNTRIES Demo.SCRIPTS Demo.entry_points
                    "fra-FR-Wxyz" "fra" "Wxyz" ["FR"] [] Demo.fra Demo.loaded Demo.loaded
                    eq_refl eq_refl eq_refl
                    ltac:(repeat constructor; try by apply DemoFacts.countries_elem)))).
    + vm_compute; discriminate.
    + apply (proj1 (bool_decide_eq_false _)). vm_compute; reflexivity.
  - apply (proj2 (proj2 (Language_fromietf_invalid_subtag
                    Demo.LANGUAGE_MATRIX Demo.COUNTRIES Demo.SCRIPTS Demo.entry_points
                    "fra-" "fra" "" [] [] Demo.fra Demo.loaded Demo.loaded
                    eq_refl eq_refl eq_refl ltac:(constructor)))).
    + reflexivity.
    + apply (proj1 (bool_decide_eq_false _)). vm_compute; reflexivity.
Defined.

Lemma Language_fromcode_getattr_witness :
  Language_getattr Demo.entry_points Demo.eng "test" Demo.with_test
  = (Ok "test2", Demo.with_test).
Proof.
  refine (proj2 (proj2 (proj2 (proj2
            (Language_fromcode_getattr
               Demo.LANGUAGE_MATRIX Demo.COUNTRIES Demo.SCRIPTS Demo.entry_points
               "test2" "test" Demo.TestConverter _ "eng" None None Demo.eng
               Demo.with_test Demo.with_test _ eq_refl _ _)))) _).
  - vm_compute; reflexivity.
  - reflexivity.
  - vm_compute; reflexivity.
  - reflexivity.
Defined.

Lemma Language_getattr_discovers_witness :
  exists st',
    register_language_converter "alpha2" Demo.alpha2 initial_state = (Ok tt, st') /\
    get_language_converter Demo.entry_points "alpha2" initial_state
    = (Ok Demo.alpha2, st') /\
    LANGUAGE_CONVERTERS st' !! "alpha2" = Some Demo.alpha2 /\
    get_language_converter Demo.entry_points "alpha2" st' = (Ok Demo.alpha2, st') /\
    forall v,
      convert Demo.alpha2 (alpha3 Demo.por_BR)
        (country_alpha2 <$> country Demo.por_BR)
        (script_code <$> script Demo.por_BR) = Ok v ->
      Language_getattr Demo.entry_points Demo.por_BR "alpha2" initial_state
      = (Ok v, st') /\
      Language_getattr Demo.entry_points Demo.por_BR "alpha2" st' = (Ok v, st').
Proof.
  apply (Language_getattr_discovers Demo.entry_points Demo.por_BR "alpha2"
           Demo.alpha2 initial_state).
  - reflexivity.
  - reflexivity.
  - by eexists.
Defined.
